(** * PortfolioManager front end: allocation aggregation and strategy selection

    A shallow embedding of the computations of the React front end
    ([App.tsx], [AssetAllocationPage.tsx], [AssetCompositionPage.tsx],
    [StockListPage.tsx], [StrategyPage.tsx], [StockDetailPage.tsx]) and the
    properties the specification states about them.

    Conventions of the embedding:
    - a JavaScript [number] is a binary64 number.  [Binary64] holds the
      aggregation ([currentAllocation], [totalProfitLoss]) on binary64
      numbers ([PrimFloat]), with NaN, the infinities, the two zeros and
      the rounding of every operation; what depends on the zero test of the
      total or on how sums round is stated there.  [Allocation] and the
      pages hold the same loops on exact rationals ([Q]), for the
      properties that do not depend on rounding: which stock is valued at
      which price, which categories and rows there are, and their order
      in the scenarios.  Identifiers are integers ([Z]);
    - a JavaScript [Map] / [Set] keeps its insertion order, so both are lists
      (association list, duplicate-free list);
    - the object [livePrices], only ever read by key, is a [gmap Z Q];
    - React state is a record, a handler is a function on it, and the
      requests and alerts a handler issues are returned as a list of
      effects. *)

From Stdlib Require Import QArith Qround Qabs Lqa ZArith String Ascii List.
From Stdlib Require Import Permutation Sorted DecimalString.
From Stdlib Require Import PrimFloat SpecFloat FloatOps FloatAxioms.
From stdpp Require Import gmap strings.
Import ListNotations.

Local Open Scope string_scope.
Local Open Scope Q_scope.

(** ** JavaScript values *)

Module Js.

(** [x ? _ : _] on a number: [0] is falsy, any other rational is truthy. *)
Definition truthy (x : Q) : bool := negb (Qeq_bool x 0).

(** [v || 0] where [v] is a number or [undefined]. *)
Definition or_zero (v : option Q) : Q :=
  match v with
  | Some x => if truthy x then x else 0
  | None => 0
  end.

(** [!s] on a string: only the empty string is falsy. *)
Definition str_falsy (s : string) : bool := String.eqb s "".

(** [Array.prototype.find]. *)
Definition find {A} (p : A -> bool) (l : list A) : option A := List.find p l.

(** [Array.prototype.includes] on numeric ids. *)
Definition includes (l : list Z) (x : Z) : bool := existsb (Z.eqb x) l.

(** [new Map<string, V>()]: entries in insertion order; [set] on a present
    key overwrites the value in place, on a fresh key appends. *)
Module Map.
Definition t (V : Type) := list (string * V).

Definition empty {V} : t V := [].

Fixpoint get {V} (m : t V) (k : string) : option V :=
  match m with
  | [] => None
  | (k', v) :: m' => if String.eqb k' k then Some v else get m' k
  end.

Fixpoint set {V} (m : t V) (k : string) (v : V) : t V :=
  match m with
  | [] => [(k, v)]
  | (k', v') :: m' =>
      if String.eqb k' k then (k', v) :: m' else (k', v') :: set m' k v
  end.

Definition keys {V} (m : t V) : list string := fst <$> m.
Definition entries {V} (m : t V) : list (string * V) := m.
End Map.

(** [new Set(iterable)]: the distinct elements, each at the place of its
    first occurrence. *)
Module Set_.
Definition add {A} `{EqDecision A} (s : list A) (x : A) : list A :=
  if decide (x ∈ s) then s else (s ++ [x])%list.

Definition of_list {A} `{EqDecision A} (l : list A) : list A :=
  fold_left add l [].
End Set_.

(** [Array.prototype.sort(cmp)]: a stable sort; [cmp a b > 0] asks for [a]
    after [b].  Every stable sort returns the same array on a consistent
    comparator, so insertion sort stands for the engine's algorithm. *)
Section Sort.
Context {A : Type} (cmp : A -> A -> Q).

Fixpoint insert (x : A) (l : list A) : list A :=
  match l with
  | [] => [x]
  | y :: l' =>
      if Qle_bool (cmp x y) 0 then x :: y :: l' else y :: insert x l'
  end.

Definition sort (l : list A) : list A := fold_right insert [] l.
End Sort.

(** [l.slice(start, end)]: a negative index counts from the end, and both
    indices are brought into [0, length]. *)
Definition slice_index (len i : Z) : Z :=
  if (i <? 0)%Z then Z.max (len + i) 0 else Z.min i len.

Definition slice {A} (l : list A) (start stop : Z) : list A :=
  let len := Z.of_nat (length l) in
  let k := slice_index len start in
  let final := slice_index len stop in
  take (Z.to_nat (final - k)) (drop (Z.to_nat k) l).


(** The values an object's field can hold where a form overwrites fields
    with text: [undefined], [null], a number or a string. *)
Inductive Value :=
| undefined
| null
| number (n : Z)
| text (s : string).

(** [!v] *)
Definition falsy (v : Value) : bool :=
  match v with
  | undefined | null => true
  | number n => (n =? 0)%Z
  | text s => str_falsy s
  end.

(** [o.k]: [undefined] where the object has no such key. *)
Definition field (o : gmap string Value) (k : string) : Value :=
  default undefined (o !! k).


(** [s.repeat(n)] *)
Fixpoint repeat_string (s : string) (n : nat) : string :=
  match n with
  | O => ""
  | S n => s ++ repeat_string s n
  end.

(** [l.map(f)] where [f] may not return, flattened in document order:
    [None] as soon as one call does not return. *)
Fixpoint flat_map_option {A B} (f : A -> option (list B)) (l : list A)
    : option (list B) :=
  match l with
  | [] => Some []
  | x :: l' =>
      match f x, flat_map_option f l' with
      | Some ys, Some zs => Some (ys ++ zs)%list
      | _, _ => None
      end
  end.


(** [sort()] without a comparator orders strings by their UTF-16 code
    units; [lt] is that order, and this is the comparison [sort] makes. *)
Definition default_compare (lt : string -> string -> bool) (a b : string) : Q :=
  if lt a b then - (1) else if lt b a then 1 else 0.


(** [Number.prototype.toFixed(f)] below 10^21: the integer [n] nearest to
    [x * 10^f] (the larger one on a tie, after the sign is split off),
    printed with [f] digits after the point.  From 10^21 on the result is
    [Number::toString], which is not modelled ([None]).  [x] is the exact
    value of the number printed: a rational that is not a binary64 number
    (12.345, say) is printed by the code from the binary64 number next to
    it, which differs from this function where [x * 10^f] is a tie. *)
Definition zeros (k : nat) : string := string_of_list_ascii (repeat "0"%char k).

Definition digits_of (n : Z) : string :=
  if (n =? 0)%Z then "0" else NilEmpty.string_of_uint (N.to_uint (Z.to_N n)).

(** The digits of [n] with a point before the last [f] of them. *)
Definition fixed_digits (n : Z) (f : nat) : string :=
  let m := digits_of n in
  match f with
  | O => m
  | _ =>
      let k := String.length m in
      let m := if (k <=? f)%nat then zeros (f + 1 - k) ++ m else m in
      let k := String.length m in
      substring 0 (k - f) m ++ "." ++ substring (k - f) f m
  end.

Definition toFixed (x : Q) (f : nat) : option string :=
  let s := if Qle_bool 0 x then "" else "-" in
  let x := Qabs x in
  if Qle_bool (inject_Z (10 ^ 21)) x then None else
  let n := Qfloor (x * inject_Z (10 ^ Z.of_nat f) + (1 # 2)) in
  Some (s ++ fixed_digits n f).

End Js.

(** ** Data model *)

Module Strategy.
Record t := mk {
  id : Z;
  name : string;
  description : option string;
  parent_id : option Z
}.
End Strategy.

Module Stock.
Record t := mk {
  id : Z;
  ticker : string;
  name : string;
  quantity : Q;
  acquisition_price : Q;
  category : string;
  strategies : list Strategy.t
}.
End Stock.

Module TargetAllocation.
Record t := mk { category : string; percentage : Q }.
End TargetAllocation.

Module CombinedAllocation.
Record t := mk {
  category : string;
  currentPercentage : Q;
  targetPercentage : Q
}.
End CombinedAllocation.

(** ** Allocation aggregation ([App.tsx], [AssetAllocationPage.tsx],
       [AssetCompositionPage.tsx]) *)

Module Allocation.

(** [const livePrice = livePrices[stock.id];
     const value = livePrice ? livePrice * stock.quantity
                             : stock.quantity * stock.acquisition_price;] *)
Definition stock_value (livePrices : gmap Z Q) (stock : Stock.t) : Q :=
  match livePrices !! Stock.id stock with
  | Some livePrice =>
      if Js.truthy livePrice then livePrice * Stock.quantity stock
      else Stock.quantity stock * Stock.acquisition_price stock
  | None => Stock.quantity stock * Stock.acquisition_price stock
  end.

(** [categoryTotals.set(stock.category,
      (categoryTotals.get(stock.category) || 0) + value)] *)
Definition add_to_category (categoryTotals : Js.Map.t Q) (category : string)
    (value : Q) : Js.Map.t Q :=
  Js.Map.set categoryTotals category
    (Js.or_zero (Js.Map.get categoryTotals category) + value).

(** The body of [stocks.forEach] in [currentAllocation]; the state is the
    pair [(categoryTotals, totalPortfolioValue)]. *)
Definition accumulate (livePrices : gmap Z Q)
    (acc : Js.Map.t Q * Q) (stock : Stock.t) : Js.Map.t Q * Q :=
  let value := stock_value livePrices stock in
  (add_to_category (fst acc) (Stock.category stock) value, snd acc + value).

Definition totals (livePrices : gmap Z Q) (stocks : list Stock.t)
    : Js.Map.t Q * Q :=
  fold_left (accumulate livePrices) stocks (Js.Map.empty, 0).

Definition categoryTotals livePrices stocks : Js.Map.t Q :=
  fst (totals livePrices stocks).

Definition totalPortfolioValue livePrices stocks : Q :=
  snd (totals livePrices stocks).

(** The [for ... of categoryTotals.entries()] loop filling
    [categoryPercentages]. *)
Definition percentages (categoryTotals : Js.Map.t Q) (total : Q) : Js.Map.t Q :=
  fold_left
    (fun categoryPercentages '(category, t) =>
       Js.Map.set categoryPercentages category ((t / total) * 100))
    (Js.Map.entries categoryTotals) Js.Map.empty.

(** [currentAllocation] on exact rationals: the total is zero here exactly
    when the values add up to zero, while the code tests the rounded total
    (see [Binary64.currentAllocation]). *)
Definition currentAllocation (livePrices : gmap Z Q) (stocks : list Stock.t)
    : Js.Map.t Q :=
  let '(categoryTotals, totalPortfolioValue) := totals livePrices stocks in
  if Qeq_bool totalPortfolioValue 0 then Js.Map.empty
  else percentages categoryTotals totalPortfolioValue.

(** [pieChartData]: the same loop without the grand total, returned as
    [{name, value}] entries. *)
Definition pieChartData (livePrices : gmap Z Q) (stocks : list Stock.t)
    : list (string * Q) :=
  Js.Map.entries
    (fold_left
       (fun categoryTotals stock =>
          add_to_category categoryTotals (Stock.category stock)
            (stock_value livePrices stock))
       stocks Js.Map.empty).

(** [combinedAllocationData]. *)
Definition target_of (allocations : list TargetAllocation.t) (category : string) : Q :=
  Js.or_zero
    (TargetAllocation.percentage <$>
       Js.find (fun a => String.eqb (TargetAllocation.category a) category) allocations).

Definition row (currentAllocation : Js.Map.t Q)
    (allocations : list TargetAllocation.t) (category : string)
    : CombinedAllocation.t :=
  {| CombinedAllocation.category := category;
     CombinedAllocation.currentPercentage :=
       Js.or_zero (Js.Map.get currentAllocation category);
     CombinedAllocation.targetPercentage := target_of allocations category |}.

Definition by_current_desc (a b : CombinedAllocation.t) : Q :=
  CombinedAllocation.currentPercentage b - CombinedAllocation.currentPercentage a.

Definition combinedAllocationData (currentAllocation : Js.Map.t Q)
    (allocations : list TargetAllocation.t) : list CombinedAllocation.t :=
  let allCategories :=
    Js.Set_.of_list
      (Js.Map.keys currentAllocation ++ (TargetAllocation.category <$> allocations))%list in
  Js.sort by_current_desc (row currentAllocation allocations <$> allCategories).

End Allocation.

(** ** Asset composition page ([AssetCompositionPage.tsx]) *)

Module AssetCompositionPage.

Definition COLORS : list string :=
  ["#0088FE"; "#00C49F"; "#FFBB28"; "#FF8042"; "#8884d8"; "#da84d8"].

(** [COLORS[index % COLORS.length]]: [None] is [undefined]. *)
Definition cell_fill (index : nat) : option string :=
  COLORS !! (index mod length COLORS)%nat.

(** [pieChartData.length > 0]: the chart is drawn, otherwise the hint. *)
Definition chart_shown (pieChartData : list (string * Q)) : bool :=
  (0 <? length pieChartData)%nat.

End AssetCompositionPage.


(** ** Stock list page ([StockListPage.tsx]) *)

Module StockListPage.

(** The component state.  [editFormData] is a [Partial<Stock>]: [None] is
    the empty object. *)
Record State := mkState {
  editingStockId : option Z;
  editFormData : option Stock.t;
  allStrategies : list Strategy.t;
  selectedFilterStrategyId : option Z;
  editingSelectedParentStrategyIds : list Z;
  editingSelectedChildStrategyIds : list Z
}.

(** The body of the PUT request.  [form] is the object that is spread into
    it ([...editFormData]); the two fields the code then overrides,
    [quantity: parseInt(String(editFormData.quantity), 10)] and
    [acquisition_price: parseFloat(String(editFormData.acquisition_price))],
    are not part of this model, so [form] does not tell which quantity and
    price are sent, and no property below reads it. *)
Record UpdateBody := mkBody {
  form : option Stock.t;
  strategy_ids : list Z
}.

Inductive Effect :=
| Alert (message : string)
| ConsoleError (message : string)
| PutStock (stockId : Z) (body : UpdateBody)
| FetchStocks.

Definition msg_parent_not_selected : string :=
  "選択された子戦略の親戦略が選択されていません。".
Definition msg_update_failed : string := "銘柄の更新に失敗しました。".

(** [allStrategies.find(s => s.id === id)] *)
Definition find_strategy (allStrategies : list Strategy.t) (id : Z)
    : option Strategy.t :=
  Js.find (fun s => (Strategy.id s =? id)%Z) allStrategies.

Definition is_top_level (s : Strategy.t) : bool :=
  match Strategy.parent_id s with None => true | Some _ => false end.

Definition handleEditClick (stock : Stock.t) (st : State) : State :=
  let currentParentStrategyIds :=
    Strategy.id <$> List.filter is_top_level (Stock.strategies stock) in
  let currentChildStrategyIds :=
    Strategy.id <$>
      List.filter (fun s => negb (is_top_level s)) (Stock.strategies stock) in
  mkState (Some (Stock.id stock)) (Some stock) (allStrategies st)
    (selectedFilterStrategyId st)
    currentParentStrategyIds currentChildStrategyIds.

Definition handleCancelClick (st : State) : State :=
  mkState None None (allStrategies st) (selectedFilterStrategyId st) [] [].

(** [childStrategy && ids.includes(childStrategy.parent_id!)]: a child is
    kept when it resolves and its parent id is among [ids] ([null] is
    never included in a list of numbers). *)
Definition parent_selected (allStrategies : list Strategy.t) (ids : list Z)
    (childId : Z) : bool :=
  match find_strategy allStrategies childId with
  | Some childStrategy =>
      match Strategy.parent_id childStrategy with
      | Some p => Js.includes ids p
      | None => false
      end
  | None => false
  end.

(** [ids] are the values of the options selected in the parent list. *)
Definition handleEditingParentStrategyChange (ids : list Z) (st : State) : State :=
  mkState (editingStockId st) (editFormData st) (allStrategies st)
    (selectedFilterStrategyId st)
    ids
    (List.filter (parent_selected (allStrategies st) ids)
       (editingSelectedChildStrategyIds st)).

Definition handleEditingChildStrategyChange (ids : list Z) (st : State) : State :=
  mkState (editingStockId st) (editFormData st) (allStrategies st)
    (selectedFilterStrategyId st)
    (editingSelectedParentStrategyIds st) ids.

(** The options of the two strategy lists of the edit row:
    [allStrategies.filter(s => s.parent_id === null)] and
    [allStrategies.filter(s => s.parent_id !== null &&
       editingSelectedParentStrategyIds.includes(s.parent_id!))]. *)
Definition parentOptions (st : State) : list Strategy.t :=
  List.filter is_top_level (allStrategies st).

Definition childOptions (st : State) : list Strategy.t :=
  List.filter
    (fun s =>
       match Strategy.parent_id s with
       | Some p => Js.includes (editingSelectedParentStrategyIds st) p
       | None => false
       end)
    (allStrategies st).


(** The test of the validation loop of [handleUpdateSubmit]:
    [childStrategy && childStrategy.parent_id !== null &&
     !editingSelectedParentStrategyIds.includes(childStrategy.parent_id)] *)
Definition parent_missing (allStrategies : list Strategy.t) (parents : list Z)
    (childId : Z) : bool :=
  match find_strategy allStrategies childId with
  | Some childStrategy =>
      match Strategy.parent_id childStrategy with
      | Some p => negb (Js.includes parents p)
      | None => false
      end
  | None => false
  end.

(** The [for ... of] loop: the first child that fails the test stops it. *)
Fixpoint first_orphan (allStrategies : list Strategy.t) (parents : list Z)
    (children : list Z) : option Z :=
  match children with
  | [] => None
  | childId :: rest =>
      if parent_missing allStrategies parents childId then Some childId
      else first_orphan allStrategies parents rest
  end.

(** [[...new Set([...parents, ...children])]] *)
Definition allSelectedStrategyIds (parents children : list Z) : list Z :=
  Js.Set_.of_list (parents ++ children)%list.

(** [put_ok] tells whether the server accepts the PUT.  [!editingStockId]
    holds for [null] and for an id of [0]. *)
Definition handleUpdateSubmit (put_ok : Z -> UpdateBody -> bool) (st : State)
    : State * list Effect :=
  match editingStockId st with
  | None => (st, [])
  | Some stockId =>
      if (stockId =? 0)%Z then (st, []) else
      match first_orphan (allStrategies st)
              (editingSelectedParentStrategyIds st)
              (editingSelectedChildStrategyIds st) with
      | Some _ => (st, [Alert msg_parent_not_selected])
      | None =>
          let updatedStock :=
            mkBody (editFormData st)
              (allSelectedStrategyIds (editingSelectedParentStrategyIds st)
                 (editingSelectedChildStrategyIds st)) in
          if put_ok stockId updatedStock then
            (handleCancelClick st, [PutStock stockId updatedStock; FetchStocks])
          else
            (st, [PutStock stockId updatedStock;
                  ConsoleError "Error updating stock:";
                  Alert msg_update_failed])
      end
  end.

(** Profit and loss of the listed stocks ([totalProfitLoss]). *)
Definition marketValue (livePrices : gmap Z Q) (stock : Stock.t) : option Q :=
  match livePrices !! Stock.id stock with
  | Some livePrice => Some (livePrice * Stock.quantity stock)
  | None => None
  end.

Definition profitLoss (livePrices : gmap Z Q) (stock : Stock.t) : option Q :=
  match marketValue livePrices stock with
  | Some mv => Some (mv - Stock.acquisition_price stock * Stock.quantity stock)
  | None => None
  end.

Definition totalProfitLoss (livePrices : gmap Z Q) (filteredStocks : list Stock.t) : Q :=
  fold_left (fun sum stock => sum + Js.or_zero (profitLoss livePrices stock))
    filteredStocks 0.

End StockListPage.

(** ** Fetching the stocks ([App.tsx], [fetchStocks]) *)

Module App.

(** What the server answers: [None] is a failed request. *)
Record Backend := mkBackend {
  get_stocks : option (list Stock.t);
  get_name : string -> option string;
  put_stock : Z -> Stock.t -> bool
}.

Inductive Request :=
| GetStocks
| GetName (ticker : string)
| PutStock (id : Z) (body : Stock.t).

(** A computation that issues requests: its result and a log of the
    requests it issued.  The log of [fetchStocks] lists the requests stock
    by stock; on the wire the callbacks interleave (a name look-up goes out
    before the PUT of a stock listed earlier has), so the log tells which
    requests are sent, not their order. *)
Definition Io (A : Type) : Type := A * list Request.

Definition ret {A} (a : A) : Io A := (a, []).
Definition bind {A B} (m : Io A) (k : A -> Io B) : Io B :=
  let '(a, l1) := m in let '(b, l2) := k a in (b, (l1 ++ l2)%list).
Definition send {A} (r : Request) (answer : A) : Io A := (answer, [r]).

Definition unknown_name : string := "不明な銘柄".
Definition uncategorized : string := "未分類".
Definition japanese : string := "日本株".
Definition us : string := "米国株".

(** [/^\d+$/.test(s)]: one or more characters, all of them in [0-9]. *)
Definition is_digit (c : ascii) : bool :=
  ((48 <=? nat_of_ascii c) && (nat_of_ascii c <=? 57))%nat.

Definition all_digits (s : string) : bool :=
  match s with
  | EmptyString => false
  | _ => forallb is_digit (list_ascii_of_string s)
  end.

Definition with_name (name : string) (s : Stock.t) : Stock.t :=
  Stock.mk (Stock.id s) (Stock.ticker s) name (Stock.quantity s)
    (Stock.acquisition_price s) (Stock.category s) (Stock.strategies s).

Definition with_category (category : string) (s : Stock.t) : Stock.t :=
  Stock.mk (Stock.id s) (Stock.ticker s) (Stock.name s) (Stock.quantity s)
    (Stock.acquisition_price s) category (Stock.strategies s).

(** The name step of the callback: the stock and [needsUpdate]. *)
Definition fix_name (backend : Backend) (stock : Stock.t) : Io (Stock.t * bool) :=
  if Js.str_falsy (Stock.name stock) || String.eqb (Stock.name stock) unknown_name
  then
    bind (send (GetName (Stock.ticker stock)) (get_name backend (Stock.ticker stock)))
      (fun nameResponse =>
         match nameResponse with
         | Some name => ret (with_name name stock, true)
         | None => ret (with_name unknown_name stock, false)
         end)
  else ret (stock, false).

(** The category step: the ticker heuristic. *)
Definition fix_category (ticker : string) (acc : Stock.t * bool) : Stock.t * bool :=
  let '(updatedStock, needsUpdate) := acc in
  if Js.str_falsy (Stock.category updatedStock)
     || String.eqb (Stock.category updatedStock) uncategorized
  then
    let isJapaneseStock := all_digits ticker in
    (with_category (if isJapaneseStock then japanese else us) updatedStock, true)
  else (updatedStock, needsUpdate).

(** The async callback of [fetchedStocks.map]. *)
Definition process (backend : Backend) (stock : Stock.t) : Io Stock.t :=
  bind (fix_name backend stock) (fun acc =>
    let '(updatedStock, needsUpdate) := fix_category (Stock.ticker stock) acc in
    if needsUpdate then
      bind (send (PutStock (Stock.id updatedStock) updatedStock)
              (put_stock backend (Stock.id updatedStock) updatedStock))
        (fun _ => ret updatedStock)
    else ret updatedStock).

Definition DEFAULT_CATEGORIES : list string :=
  ["日本株"; "米国株"; "投資信託"; "債券"; "不動産"; "その他"; "未分類"].

(** [availableCategories]: the default categories, then the categories of
    the stocks and of the targets, without duplicates, sorted.  [lt] is the
    code-unit order of strings that [sort()] uses. *)
Definition availableCategories (lt : string -> string -> bool)
    (stocks : list Stock.t) (allocations : list TargetAllocation.t) : list string :=
  let categories := Js.Set_.of_list DEFAULT_CATEGORIES in
  let categories :=
    fold_left (fun cs stock => Js.Set_.add cs (Stock.category stock)) stocks categories in
  let categories :=
    fold_left (fun cs alloc => Js.Set_.add cs (TargetAllocation.category alloc))
      allocations categories in
  Js.sort (Js.default_compare lt) categories.


(** [fetchStocks]: the new value of the [stocks] state and the requests
    sent.  The callbacks run interleaved; the log lists the requests of
    each stock together, and nothing below depends on the interleaving. *)
Definition fetchStocks (backend : Backend) (stocks : list Stock.t)
    : list Stock.t * list Request :=
  match get_stocks backend with
  | None => (stocks, [GetStocks])
  | Some fetchedStocks =>
      let results := process backend <$> fetchedStocks in
      (fst <$> results, GetStocks :: concat (snd <$> results))
  end.

End App.

(** ** Strategy page ([StrategyPage.tsx]) *)

Module StrategyPage.

(** A row of the strategy table: the strategy, its indentation, whether it
    is the row being edited, and the name and parent cells of a row that is
    not.  A parent cell of [None] is [undefined] (nothing is shown). *)
Record Row := mkRow {
  strategy : Strategy.t;
  indent : nat;
  editing : bool;
  name_cell : string;
  parent_cell : option string
}.

(** [strategy.parent_id ? strategies.find(s => s.id === strategy.parent_id)?.name
                        : 'なし'] *)
Definition parent_name (strategies : list Strategy.t) (s : Strategy.t) : option string :=
  match Strategy.parent_id s with
  | Some p =>
      if (p =? 0)%Z then Some "なし"
      else Strategy.name <$> Js.find (fun s' => (Strategy.id s' =? p)%Z) strategies
  | None => Some "なし"
  end.

Definition row (editingStrategyId : option Z) (strategies : list Strategy.t)
    (s : Strategy.t) (indent : nat) : Row :=
  mkRow s indent
    (match editingStrategyId with
     | Some e => (e =? Strategy.id s)%Z
     | None => false
     end)
    (Js.repeat_string "--" indent ++ Strategy.name s)
    (parent_name strategies s).

(** [s.parent_id === parentId] *)
Definition has_parent (parentId : option Z) (s : Strategy.t) : bool :=
  match Strategy.parent_id s, parentId with
  | Some p, Some q => (p =? q)%Z
  | None, None => true
  | _, _ => false
  end.

(** [renderStrategies(strategyList, parentId, indent)]: the rows in the
    order of the table.  The recursion follows the parent links and need
    not end; [fuel] bounds its depth and [None] says that it was used up. *)
Fixpoint renderStrategies (fuel : nat) (editingStrategyId : option Z)
    (strategies strategyList : list Strategy.t) (parentId : option Z) (indent : nat)
    : option (list Row) :=
  match fuel with
  | O => None
  | S fuel =>
      let children := List.filter (has_parent parentId) strategyList in
      Js.flat_map_option
        (fun s =>
           match renderStrategies fuel editingStrategyId strategies strategyList
                   (Some (Strategy.id s)) (indent + 1) with
           | Some below => Some (row editingStrategyId strategies s indent :: below)
           | None => None
           end)
        children
  end.

(** The body of the table: [renderStrategies(strategies, null, 0)]. *)
Definition table (fuel : nat) (editingStrategyId : option Z)
    (strategies : list Strategy.t) : option (list Row) :=
  renderStrategies fuel editingStrategyId strategies strategies None 0.

(** The edit form of a row.  [editFormData] is a [Partial<Strategy>]: the
    strategy of the row, with the fields the inputs have overwritten. *)
Record State := mkState {
  strategies : list Strategy.t;
  editingStrategyId : option Z;
  editFormData : gmap string Js.Value
}.

Record UpdateBody := mkBody {
  body_name : Js.Value;
  body_description : Js.Value;
  body_parent_id : Js.Value
}.

Inductive Effect :=
| Alert (message : string)
| ConsoleError (message : string)
| PutStrategy (strategyId : Z) (body : UpdateBody)
| FetchStrategies.

Definition msg_name_missing : string := "戦略名を入力してください。".
Definition msg_update_failed : string := "戦略の更新に失敗しました。".

(** A strategy as the object the server sent. *)
Definition object_of (s : Strategy.t) : gmap string Js.Value :=
  <["id" := Js.number (Strategy.id s)]>
    (<["name" := Js.text (Strategy.name s)]>
       (<["description" := match Strategy.description s with
                           | Some d => Js.text d
                           | None => Js.null
                           end]>
          (<["parent_id" := match Strategy.parent_id s with
                            | Some p => Js.number p
                            | None => Js.null
                            end]> ∅))).

Definition handleEditClick (s : Strategy.t) (st : State) : State :=
  mkState (strategies st) (Some (Strategy.id s)) (object_of s).

Definition handleCancelClick (st : State) : State :=
  mkState (strategies st) None ∅.

(** [{...prev, [name]: name === 'parent_id' && value === '' ? null
                       : value === '' ? '' : value}] *)
Definition handleEditFormChange (name value : string) (st : State) : State :=
  mkState (strategies st) (editingStrategyId st)
    (<[name := if String.eqb name "parent_id" && String.eqb value ""
               then Js.null
               else if String.eqb value "" then Js.text "" else Js.text value]>
       (editFormData st)).

(** [put_ok] tells whether the server accepts the PUT.  [!editingStrategyId]
    holds for [null] and for an id of [0]. *)
Definition handleUpdateStrategy (put_ok : Z -> UpdateBody -> bool) (st : State)
    : State * list Effect :=
  match editingStrategyId st with
  | None => (st, [])
  | Some strategyId =>
      if (strategyId =? 0)%Z then (st, []) else
      if Js.falsy (Js.field (editFormData st) "name")
      then (st, [Alert msg_name_missing])
      else
        let body :=
          mkBody (Js.field (editFormData st) "name")
            (if Js.falsy (Js.field (editFormData st) "description")
             then Js.null
             else Js.field (editFormData st) "description")
            (match Js.field (editFormData st) "parent_id" with
             | Js.undefined => Js.null
             | v => v
             end) in
        if put_ok strategyId body then
          (handleCancelClick st, [PutStrategy strategyId body; FetchStrategies])
        else
          (st, [PutStrategy strategyId body;
                ConsoleError "Error updating strategy:";
                Alert msg_update_failed])
  end.


End StrategyPage.


(** ** Stock detail page ([StockDetailPage.tsx]) *)

Module StockDetailPage.

Definition newsPerPage : Z := 10.

(** [Math.ceil(news.length / newsPerPage)] *)
Definition totalPages {A} (news : list A) : Z :=
  Qceiling (inject_Z (Z.of_nat (length news)) / inject_Z newsPerPage).

(** [news.slice((newsCurrentPage - 1) * newsPerPage,
                newsCurrentPage * newsPerPage)] *)
Definition page {A} (news : list A) (newsCurrentPage : Z) : list A :=
  Js.slice news ((newsCurrentPage - 1) * newsPerPage) (newsCurrentPage * newsPerPage).

(** The two buttons: [prev => Math.max(prev - 1, 1)] and
    [prev => Math.min(prev + 1, Math.ceil(news.length / newsPerPage))]. *)
Definition previousPage (newsCurrentPage : Z) : Z := Z.max (newsCurrentPage - 1) 1.

Definition nextPage {A} (news : list A) (newsCurrentPage : Z) : Z :=
  Z.min (newsCurrentPage + 1) (totalPages news).

(** [formatMarketCap]; [None] where [toFixed] is not modelled. *)
Definition formatMarketCap (marketCap : Q) : option string :=
  if Qle_bool 1000000000000 marketCap then
    (fun m => "$" ++ m ++ "T") <$> Js.toFixed (marketCap / 1000000000000) 2
  else if Qle_bool 1000000000 marketCap then
    (fun m => "$" ++ m ++ "B") <$> Js.toFixed (marketCap / 1000000000) 2
  else if Qle_bool 1000000 marketCap then
    (fun m => "$" ++ m ++ "M") <$> Js.toFixed (marketCap / 1000000) 2
  else (fun m => "$" ++ m) <$> Js.toFixed marketCap 2.

End StockDetailPage.


(** ** The aggregation on binary64 numbers ([App.tsx],
       [AssetAllocationPage.tsx], [StockListPage.tsx]) *)

Module Binary64.

(** [x ? _ : _]: [+0], [-0] and NaN are falsy. *)
Definition truthy (x : float) : bool := negb (PrimFloat.eqb x 0 || PrimFloat.is_nan x).

(** [v || 0] *)
Definition or_zero (v : option float) : float :=
  match v with
  | Some x => if truthy x then x else 0%float
  | None => 0%float
  end.

(** [livePrice ? livePrice * stock.quantity
              : stock.quantity * stock.acquisition_price] *)
Definition stock_value (livePrice : option float) (quantity acquisition_price : float)
    : float :=
  match livePrice with
  | Some p =>
      if truthy p then PrimFloat.mul p quantity
      else PrimFloat.mul quantity acquisition_price
  | None => PrimFloat.mul quantity acquisition_price
  end.

(** [(total / totalPortfolioValue) * 100] *)
Definition percentage (total totalPortfolioValue : float) : float :=
  PrimFloat.mul (PrimFloat.div total totalPortfolioValue) 100.

(** The rational a finite binary64 number stands for, in lowest terms. *)
Definition exact (x : float) : option Q :=
  match Prim2SF x with
  | S754_zero _ => Some 0
  | S754_finite s m e =>
      Some (Qred ((if s then -1 else 1) * inject_Z (Zpos m) * 2 ^ e))
  | _ => None
  end.

(** [x.toFixed(2)] of a finite binary64 number. *)
Definition shown (x : float) : option string :=
  match exact x with
  | Some q => Js.toFixed q 2
  | None => None
  end.

(** A stock as the code holds it: [quantity] and [acquisition_price] are
    binary64 numbers. *)
Module Stock.
Record t := mk {
  id : Z;
  ticker : string;
  name : string;
  quantity : float;
  acquisition_price : float;
  category : string;
  strategies : list Strategy.t
}.
End Stock.

(** [const livePrice = livePrices[stock.id];
     const value = livePrice ? livePrice * stock.quantity
                             : stock.quantity * stock.acquisition_price;] *)
Definition value (livePrices : gmap Z float) (stock : Stock.t) : float :=
  stock_value (livePrices !! Stock.id stock) (Stock.quantity stock)
    (Stock.acquisition_price stock).

(** [categoryTotals.set(stock.category,
      (categoryTotals.get(stock.category) || 0) + value)] *)
Definition add_to_category (categoryTotals : Js.Map.t float) (category : string)
    (value : float) : Js.Map.t float :=
  Js.Map.set categoryTotals category
    (PrimFloat.add (or_zero (Js.Map.get categoryTotals category)) value).

(** The body of [stocks.forEach] in [currentAllocation]; the state is the
    pair [(categoryTotals, totalPortfolioValue)]. *)
Definition accumulate (livePrices : gmap Z float)
    (acc : Js.Map.t float * float) (stock : Stock.t) : Js.Map.t float * float :=
  let value := value livePrices stock in
  (add_to_category (fst acc) (Stock.category stock) value,
   PrimFloat.add (snd acc) value).

Definition totals (livePrices : gmap Z float) (stocks : list Stock.t)
    : Js.Map.t float * float :=
  fold_left (accumulate livePrices) stocks (Js.Map.empty, 0%float).

Definition categoryTotals livePrices stocks : Js.Map.t float :=
  fst (totals livePrices stocks).

Definition totalPortfolioValue livePrices stocks : float :=
  snd (totals livePrices stocks).

(** The [for ... of categoryTotals.entries()] loop filling
    [categoryPercentages]. *)
Definition percentages (categoryTotals : Js.Map.t float) (total : float)
    : Js.Map.t float :=
  fold_left
    (fun categoryPercentages '(category, t) =>
       Js.Map.set categoryPercentages category (percentage t total))
    (Js.Map.entries categoryTotals) Js.Map.empty.

(** [currentAllocation]; [totalPortfolioValue === 0] holds for [+0] and
    [-0] and not for NaN. *)
Definition currentAllocation (livePrices : gmap Z float) (stocks : list Stock.t)
    : Js.Map.t float :=
  let '(categoryTotals, totalPortfolioValue) := totals livePrices stocks in
  if PrimFloat.eqb totalPortfolioValue 0 then Js.Map.empty
  else percentages categoryTotals totalPortfolioValue.

(** [totalProfitLoss] of the stock list page: [null] is [None]. *)
Definition marketValue (livePrices : gmap Z float) (stock : Stock.t) : option float :=
  match livePrices !! Stock.id stock with
  | Some livePrice => Some (PrimFloat.mul livePrice (Stock.quantity stock))
  | None => None
  end.

Definition profitLoss (livePrices : gmap Z float) (stock : Stock.t) : option float :=
  match marketValue livePrices stock with
  | Some mv =>
      Some (PrimFloat.sub mv
              (PrimFloat.mul (Stock.acquisition_price stock) (Stock.quantity stock)))
  | None => None
  end.

Definition totalProfitLoss (livePrices : gmap Z float) (filteredStocks : list Stock.t)
    : float :=
  fold_left (fun sum stock => PrimFloat.add sum (or_zero (profitLoss livePrices stock)))
    filteredStocks 0%float.

End Binary64.

(** ** The scenarios of the specification *)

Module Scenario.
Definition stockA : Stock.t :=
  Stock.mk 1 "7203" "A" 10 1000 "日本株" [].
(** The specification leaves the acquisition price of stock B open. *)
Definition stockB (acquisition_price : Q) : Stock.t :=
  Stock.mk 2 "AAPL" "B" 5 acquisition_price "米国株" [].
Definition stocks (acquisition_price : Q) := [stockA; stockB acquisition_price].
Definition livePrices : gmap Z Q := {[ 2%Z := 300 ]}.
Definition allocations := [TargetAllocation.mk "米国株" 50].

Definition growth : Strategy.t := Strategy.mk 1 "Growth" None None.
Definition growth_tech : Strategy.t := Strategy.mk 2 "Growth-Tech" None (Some 1%Z).
Definition tree := [growth; growth_tech].
Definition aapl : Stock.t := Stock.mk 7 "AAPL" "Apple" 5 250 "米国株" [].

(** The edit form of "AAPL" with the given parent and child selections. *)
Definition editing (parents children : list Z) : StockListPage.State :=
  StockListPage.mkState (Some 7%Z) (Some aapl) tree None parents children.

(** The page once the strategies are loaded, and "AAPL" as it was fetched
    while "Growth-Tech" was still a top-level strategy. *)
Definition loaded : StockListPage.State :=
  StockListPage.mkState None None tree None [] [].
Definition aapl_before_reparenting : Stock.t :=
  Stock.mk 7 "AAPL" "Apple" 5 250 "米国株" [Strategy.mk 2 "Growth-Tech" None None].
(** The composition scenario on binary64 numbers (acquisition price of B:
    250), and a portfolio whose values 1e16, 1 and -1e16 add up to [0] in
    binary64. *)
Definition stocks64 : list Binary64.Stock.t :=
  [Binary64.Stock.mk 1 "7203" "A" 10 1000 "日本株" [];
   Binary64.Stock.mk 2 "AAPL" "B" 5 250 "米国株" []].
Definition livePrices64 : gmap Z float := {[ 2%Z := 300%float ]}.
Definition no_prices64 : gmap Z float := ∅.
Definition cancelling64 : list Binary64.Stock.t :=
  [Binary64.Stock.mk 1 "A" "A" 1 1e16 "a" [];
   Binary64.Stock.mk 2 "B" "B" 1 1 "b" [];
   Binary64.Stock.mk 3 "C" "C" (-1) 1e16 "a" []].
End Scenario.

(** ** Vocabulary of the statements *)

Definition Qsum (l : list Q) : Q := fold_right Qplus 0 l.

(** The sum of the values of the stocks of one category, and of all. *)
Definition category_total (livePrices : gmap Z Q) (stocks : list Stock.t)
    (c : string) : Q :=
  Qsum (Allocation.stock_value livePrices <$>
          filter (fun s => Stock.category s = c) stocks).


(** The valuation as the specification words it: the live price whenever
    the mapping has an entry for the stock, the acquisition price otherwise. *)
Definition spec_stock_value (livePrices : gmap Z Q) (stock : Stock.t) : Q :=
  match livePrices !! Stock.id stock with
  | Some livePrice => livePrice * Stock.quantity stock
  | None => Stock.acquisition_price stock * Stock.quantity stock
  end.

(** Descending order of a key; rows in descending order of their current
    percentage. *)
Definition descending {A} (key : A -> Q) (a b : A) : Prop := key b <= key a.

Definition current_desc : CombinedAllocation.t -> CombinedAllocation.t -> Prop :=
  descending CombinedAllocation.currentPercentage.

(** A stock whose live price is present and zero. *)
Module ZeroPrice.
Definition stock : Stock.t := Stock.mk 1 "7203" "A" 10 1000 "日本株" [].
Definition livePrices : gmap Z Q := {[ 1%Z := 0 ]}.
End ZeroPrice.

(** A percentage as the comparison table prints it: [toFixed(2)]. *)
Definition shown (x : Q) : option string := Js.toFixed x 2.

Definition shown_entry (entry : string * Q) : string * option string :=
  (fst entry, shown (snd entry)).

Definition shown_row (r : CombinedAllocation.t)
    : string * option string * option string :=
  (CombinedAllocation.category r,
   shown (CombinedAllocation.currentPercentage r),
   shown (CombinedAllocation.targetPercentage r)).

(** The direct-ancestor condition on the two selections of the edit form:
    every selected child resolves to a strategy whose parent is selected. *)
Definition children_have_parents (st : StockListPage.State) : Prop :=
  forall c, c ∈ StockListPage.editingSelectedChildStrategyIds st ->
    exists s p,
      StockListPage.find_strategy (StockListPage.allStrategies st) c = Some s
      /\ Strategy.parent_id s = Some p
      /\ p ∈ StockListPage.editingSelectedParentStrategyIds st.

(** A selected child that resolves to a child strategy whose parent is not
    among the selected parents. *)
Definition orphan (st : StockListPage.State) (c : Z) : Prop :=
  c ∈ StockListPage.editingSelectedChildStrategyIds st
  /\ exists s p,
       StockListPage.find_strategy (StockListPage.allStrategies st) c = Some s
       /\ Strategy.parent_id s = Some p
       /\ p ∉ StockListPage.editingSelectedParentStrategyIds st.

(** A stock that the category step of [fetchStocks] rewrites, and one that
    shows a category in the list. *)
Definition uncategorized (s : Stock.t) : Prop :=
  Stock.category s = "" \/ Stock.category s = App.uncategorized.

Definition categorized (s : Stock.t) : Prop :=
  Stock.category s <> "" /\ Stock.category s <> App.uncategorized.

(** The decimal digits, and a ticker made of digits only (at least one). *)
Definition decimal_digits : list ascii :=
  ["0"; "1"; "2"; "3"; "4"; "5"; "6"; "7"; "8"; "9"]%char.

Definition only_digits (ticker : string) : Prop :=
  ticker <> "" /\ Forall (fun c => c ∈ decimal_digits) (list_ascii_of_string ticker).

(** What [fetchStocks] does to one fetched stock [s], shown as [s'], with
    the requests [requests] it sent. *)
Definition category_fixed (requests : list App.Request) (s s' : Stock.t) : Prop :=
  Stock.id s' = Stock.id s
  /\ Stock.ticker s' = Stock.ticker s
  /\ (Stock.category s = "" \/ Stock.category s = App.uncategorized ->
      Stock.category s'
      = (if App.all_digits (Stock.ticker s) then App.japanese else App.us)
      /\ App.PutStock (Stock.id s) s' ∈ requests)
  /\ (~ (Stock.category s = "" \/ Stock.category s = App.uncategorized) ->
      Stock.category s' = Stock.category s).

(** The category the ticker heuristic gives. *)
Definition heuristic_category (ticker : string) : string :=
  if App.all_digits ticker then App.japanese else App.us.

(** [under l parent s d]: in the list [l], [s] is [d] levels below the
    strategies whose parent is [parent] (at level 0 it is one of them). *)
Inductive under (l : list Strategy.t) (parent : option Z) : Strategy.t -> nat -> Prop :=
| under_here s :
    s ∈ l -> Strategy.parent_id s = parent -> under l parent s 0
| under_below c s d :
    c ∈ l -> Strategy.parent_id c = parent ->
    under l (Some (Strategy.id c)) s d -> under l parent s (S d).

(** A row of the table shows [s] with indentation [d]. *)
Definition shown_at (rows : list StrategyPage.Row) (s : Strategy.t) (d : nat) : Prop :=
  exists r, r ∈ rows /\ StrategyPage.strategy r = s /\ StrategyPage.indent r = d.


(** The page numbers of a news list: 1 to the number of pages. *)
Definition page_numbers {A} (news : list A) : list Z :=
  Z.of_nat <$> seq 1 (Z.to_nat (StockDetailPage.totalPages news)).


(** What is sent for a strategy saved as it is: its name, its description
    with an empty one as [null], and its parent. *)
Definition body_of (s : Strategy.t) : StrategyPage.UpdateBody :=
  StrategyPage.mkBody (Js.text (Strategy.name s))
    (match Strategy.description s with
     | Some d => if Js.str_falsy d then Js.null else Js.text d
     | None => Js.null
     end)
    (match Strategy.parent_id s with
     | Some p => Js.number p
     | None => Js.null
     end).

(** The effects contain a request to the server. *)
Definition sends_put (effects : list StrategyPage.Effect) : bool :=
  existsb (fun e => match e with StrategyPage.PutStrategy _ _ => true | _ => false end)
    effects.


(** A binary64 number that counts as present for [? :] and [||]: any but
    [+0], [-0] and NaN. *)
Definition present (x : float) : bool :=
  negb (PrimFloat.is_nan x) && negb (PrimFloat.eqb x 0).

(** The value of a stock on binary64 numbers: its live price times the
    quantity when the live prices hold a price for it that is present, the
    quantity times the acquisition price otherwise. *)
Definition worth (livePrices : gmap Z float) (stock : Binary64.Stock.t) : float :=
  match livePrices !! Binary64.Stock.id stock with
  | Some livePrice =>
      if present livePrice
      then PrimFloat.mul livePrice (Binary64.Stock.quantity stock)
      else PrimFloat.mul (Binary64.Stock.quantity stock)
             (Binary64.Stock.acquisition_price stock)
  | None =>
      PrimFloat.mul (Binary64.Stock.quantity stock)
        (Binary64.Stock.acquisition_price stock)
  end.

(** Binary64 numbers added up from [0] in list order. *)
Definition float_sum (values : list float) : float :=
  fold_left PrimFloat.add values 0%float.

(** The totals the additions of [float_sum] pass through, starting from [t]. *)
Fixpoint partial_sums (t : float) (values : list float) : list float :=
  match values with
  | [] => []
  | v :: values' => PrimFloat.add t v :: partial_sums (PrimFloat.add t v) values'
  end.

(** Binary64 numbers added up from [0] in list order, where a total so far
    that is not present (NaN or a zero) counts as [0] for the next
    addition. *)
Definition running_total (values : list float) : float :=
  fold_left (fun t v => PrimFloat.add (if present t then t else 0%float) v)
    values 0%float.

(** A binary64 number that is neither NaN nor [-0]. *)
Definition kept (t : float) : Prop :=
  Prim2SF t <> S754_nan /\ Prim2SF t <> S754_zero true.

(** The values of the stocks of one category, in the order of the list. *)
Definition category_values (livePrices : gmap Z float) (stocks : list Binary64.Stock.t)
    (c : string) : list float :=
  worth livePrices <$> filter (fun s => Binary64.Stock.category s = c) stocks.

(** The total of a category and the total of the portfolio, as functions of
    the stock list. *)
Definition category_total64 (livePrices : gmap Z float)
    (stocks : list Binary64.Stock.t) (c : string) : float :=
  running_total (category_values livePrices stocks c).

Definition portfolio_total64 (livePrices : gmap Z float)
    (stocks : list Binary64.Stock.t) : float :=
  float_sum (worth livePrices <$> stocks).

(** The categories of the stocks, each once, in the order of first
    occurrence. *)
Definition categories64 (stocks : list Binary64.Stock.t) : list string :=
  Js.Set_.of_list (Binary64.Stock.category <$> stocks).

(** The same binary64 number: equal, or both a zero ([+0] and [-0]). *)
Definition same_float (x y : float) : Prop :=
  x = y \/ (PrimFloat.eqb x 0 = true /\ PrimFloat.eqb y 0 = true).

(** The stock has an entry in the live prices. *)
Definition priced (livePrices : gmap Z float) (stock : Binary64.Stock.t) : Prop :=
  is_Some (livePrices !! Binary64.Stock.id stock).

(** What a stock adds to the total profit and loss on binary64 numbers:
    with a live price, [live price * quantity - acquisition price * quantity]
    when that is present, and [0] in every other case. *)
Definition gain64 (livePrices : gmap Z float) (stock : Binary64.Stock.t) : float :=
  match livePrices !! Binary64.Stock.id stock with
  | Some livePrice =>
      let profit :=
        PrimFloat.sub (PrimFloat.mul livePrice (Binary64.Stock.quantity stock))
          (PrimFloat.mul (Binary64.Stock.acquisition_price stock)
             (Binary64.Stock.quantity stock)) in
      if present profit then profit else 0%float
  | None => 0%float
  end.


(** [a] is not after [b] in the order [lt]. *)
Definition not_after {A} (lt : A -> A -> bool) (a b : A) : Prop := lt b a = false.

(** A strict order in which incomparable elements count as equal. *)
Definition strict_weak_order {A} (lt : A -> A -> bool) : Prop :=
  (forall a b, lt a b = true -> lt b a = false)
  /\ (forall a b c, lt b a = false -> lt c b = false -> lt c a = false).

(** What [fetchStocks] never touches in a stock. *)
Definition same_holding (s s' : Stock.t) : Prop :=
  Stock.id s' = Stock.id s /\ Stock.ticker s' = Stock.ticker s
  /\ Stock.quantity s' = Stock.quantity s
  /\ Stock.acquisition_price s' = Stock.acquisition_price s
  /\ Stock.strategies s' = Stock.strategies s.

(** A stock that has a name, and a stock [fetchStocks] leaves alone. *)
Definition named (s : Stock.t) : Prop :=
  Stock.name s <> "" /\ Stock.name s <> App.unknown_name.

Definition settled (s : Stock.t) : Prop := named s /\ categorized s.


(** What the name step of [fetchStocks] does to a fetched stock [s], shown
    as [s'], given the answer of the name look-up. *)
Definition name_fixed (backend : App.Backend) (s s' : Stock.t) : Prop :=
  (named s -> Stock.name s' = Stock.name s)
  /\ (~ named s ->
      match App.get_name backend (Stock.ticker s) with
      | Some name => Stock.name s' = name
      | None => Stock.name s' = App.unknown_name
      end).

(** The associations stored with a stock agree with the loaded strategies
    and obey the direct-ancestor rule. *)
Definition consistent_associations (allStrategies : list Strategy.t)
    (stock : Stock.t) : Prop :=
  (forall s, s ∈ Stock.strategies stock ->
     StockListPage.find_strategy allStrategies (Strategy.id s) = Some s)
  /\ (forall s p, s ∈ Stock.strategies stock -> Strategy.parent_id s = Some p ->
        exists s', s' ∈ Stock.strategies stock /\ Strategy.id s' = p
                   /\ Strategy.parent_id s' = None).

(** The elements whose key is [k]. *)
Definition has_key {A} (key : A -> Q) (k : Q) (a : A) : bool := Qeq_bool (key a) k.



(** The value of an entry in lowest terms. *)
Definition reduced_entry (entry : string * Q) : string * Q :=
  (fst entry, Qred (snd entry)).


(** * Properties *)

(** ** Truthiness and sums of rationals *)

Lemma truthy_true x : Js.truthy x = true <-> ~ x == 0.
Proof.
  unfold Js.truthy. destruct (Qeq_bool x 0) eqn:E; simpl.
  - apply Qeq_bool_iff in E. split; [discriminate | tauto].
  - apply Qeq_bool_neq in E. tauto.
Qed.

Lemma truthy_false x : Js.truthy x = false <-> x == 0.
Proof.
  unfold Js.truthy. destruct (Qeq_bool x 0) eqn:E; simpl.
  - apply Qeq_bool_iff in E. tauto.
  - apply Qeq_bool_neq in E. split; [discriminate | tauto].
Qed.

Lemma or_zero_Some x : Js.or_zero (Some x) == x.
Proof.
  simpl. destruct (Js.truthy x) eqn:E; [reflexivity |].
  apply truthy_false in E. symmetry. exact E.
Qed.

Lemma Qsum_app l1 l2 : Qsum (l1 ++ l2) == Qsum l1 + Qsum l2.
Proof.
  induction l1 as [| x l1 IH]; simpl; [lra |]. rewrite IH. lra.
Qed.

(** [toFixed] prints the integer nearest to [x * 10^f]. *)
Lemma toFixed_nearest (x : Q) (f : nat) (n : Z) :
  0 <= x -> x < inject_Z (10 ^ 21) ->
  inject_Z n <= x * inject_Z (10 ^ Z.of_nat f) + (1 # 2) ->
  x * inject_Z (10 ^ Z.of_nat f) + (1 # 2) < inject_Z n + 1 ->
  Js.toFixed x f = Some (Js.fixed_digits n f).
Proof.
  intros H0 H21 Hlo Hhi. unfold Js.toFixed.
  assert (Habs : Qabs x == x) by (apply Qabs_pos; exact H0).
  assert (E0 : Qle_bool 0 x = true) by (apply Qle_bool_iff; exact H0).
  rewrite E0.
  destruct (Qle_bool (inject_Z (10 ^ 21)) (Qabs x)) eqn:E21.
  - apply Qle_bool_iff in E21. rewrite Habs in E21.
    exfalso. exact (Qlt_not_le _ _ H21 E21).
  - cbn [append].
    rewrite (Qfloor_comp _ (x * inject_Z (10 ^ Z.of_nat f) + (1 # 2)))
      by (rewrite Habs; reflexivity).
    set (y := x * inject_Z (10 ^ Z.of_nat f) + (1 # 2)) in *.
    pose proof (Qfloor_le y) as Hfl.
    assert (Hle : (n <= Qfloor y)%Z).
    { rewrite <- (Qfloor_Z n). apply Qfloor_resp_le. exact Hlo. }
    assert (Hlt : (Qfloor y < n + 1)%Z).
    { rewrite Zlt_Qlt, inject_Z_plus. apply Qle_lt_trans with y; assumption. }
    replace (Qfloor y) with n by lia. reflexivity.
Qed.

(** ** [Map] and [Set] *)

Section MapFacts.
Context {V : Type}.
Implicit Types (m : Js.Map.t V) (k : string) (v : V).

Lemma get_None m k : Js.Map.get m k = None <-> k ∉ Js.Map.keys m.
Proof.
  induction m as [| [k' v'] m IH]; simpl.
  - split; [intros _; apply not_elem_of_nil | reflexivity].
  - rewrite not_elem_of_cons. destruct (String.eqb_spec k' k) as [-> | Hne].
    + split; [discriminate | intros [H _]; congruence].
    + rewrite IH. split; [intros H; split; [congruence | exact H] | tauto].
Qed.

Lemma get_Some_key m k v : Js.Map.get m k = Some v -> k ∈ Js.Map.keys m.
Proof.
  intros H. destruct (decide (k ∈ Js.Map.keys m)) as [Hin | Hnin]; [exact Hin |].
  apply get_None in Hnin. congruence.
Qed.

Lemma get_set_eq m k v : Js.Map.get (Js.Map.set m k v) k = Some v.
Proof.
  induction m as [| [k' v'] m IH]; simpl.
  - rewrite String.eqb_refl. reflexivity.
  - destruct (String.eqb_spec k' k) as [-> | Hne]; simpl.
    + rewrite String.eqb_refl. reflexivity.
    + destruct (String.eqb_spec k' k); [contradiction | exact IH].
Qed.

Lemma get_set_ne m k k' v :
  k <> k' -> Js.Map.get (Js.Map.set m k v) k' = Js.Map.get m k'.
Proof.
  intros Hne. induction m as [| [k0 v0] m IH]; simpl.
  - destruct (String.eqb_spec k k'); [contradiction | reflexivity].
  - destruct (String.eqb_spec k0 k) as [-> | Hk]; simpl.
    + destruct (String.eqb_spec k k'); [contradiction | reflexivity].
    + rewrite IH. reflexivity.
Qed.

Lemma keys_set m k v :
  Js.Map.keys (Js.Map.set m k v) = Js.Set_.add (Js.Map.keys m) k.
Proof.
  unfold Js.Set_.add, Js.Map.keys. induction m as [| [k' v'] m IH].
  - reflexivity.
  - cbn [Js.Map.set]. destruct (String.eqb_spec k' k) as [-> | Hne].
    + rewrite decide_True by (rewrite fmap_cons; left). reflexivity.
    + rewrite !fmap_cons. cbn [fst]. rewrite IH.
      destruct (decide (k ∈ (fst <$> m))) as [Hin | Hnin].
      * rewrite decide_True by (right; exact Hin). reflexivity.
      * rewrite decide_False; [reflexivity |].
        apply not_elem_of_cons. split; [congruence | exact Hnin].
Qed.
End MapFacts.

Section SetFacts.
Context {A : Type} `{EqDecision A}.
Implicit Types (l acc : list A) (x : A).

Lemma add_elem acc x y : y ∈ Js.Set_.add acc x <-> y ∈ acc \/ y = x.
Proof.
  unfold Js.Set_.add. destruct (decide (x ∈ acc)) as [Hin | Hnin].
  - split; [tauto | intros [H | ->]; assumption].
  - rewrite elem_of_app, list_elem_of_singleton. reflexivity.
Qed.

Lemma add_NoDup acc x : NoDup acc -> NoDup (Js.Set_.add acc x).
Proof.
  intros Hnd. unfold Js.Set_.add. destruct (decide (x ∈ acc)) as [Hin | Hnin].
  - exact Hnd.
  - apply NoDup_app. split; [exact Hnd |]. split; [| apply NoDup_singleton].
    intros y Hy Hy'. apply list_elem_of_singleton in Hy'. congruence.
Qed.

Lemma fold_add_elem l acc y :
  y ∈ fold_left Js.Set_.add l acc <-> y ∈ acc \/ y ∈ l.
Proof.
  revert acc. induction l as [| x l IH]; intros acc; simpl.
  - rewrite elem_of_nil. tauto.
  - rewrite IH, add_elem, elem_of_cons. tauto.
Qed.

Lemma fold_add_NoDup l acc : NoDup acc -> NoDup (fold_left Js.Set_.add l acc).
Proof.
  revert acc. induction l as [| x l IH]; intros acc Hnd; simpl.
  - exact Hnd.
  - apply IH, add_NoDup, Hnd.
Qed.

Lemma of_list_elem l y : y ∈ Js.Set_.of_list l <-> y ∈ l.
Proof.
  unfold Js.Set_.of_list. rewrite fold_add_elem, elem_of_nil. tauto.
Qed.

Lemma of_list_NoDup l : NoDup (Js.Set_.of_list l).
Proof. apply fold_add_NoDup, NoDup_nil_2. Qed.

Lemma of_list_snoc l x :
  Js.Set_.of_list (l ++ [x]) = Js.Set_.add (Js.Set_.of_list l) x.
Proof. unfold Js.Set_.of_list. rewrite fold_left_app. reflexivity. Qed.
End SetFacts.

(** ** [sort] *)

Section SortFacts.
Context {A : Type} (cmp : A -> A -> Q).

Lemma insert_perm x l : Permutation (Js.insert cmp x l) (x :: l).
Proof.
  induction l as [| y l IH]; simpl; [reflexivity |].
  destruct (Qle_bool (cmp x y) 0); [reflexivity |].
  rewrite IH. apply perm_swap.
Qed.

Lemma sort_perm l : Permutation (Js.sort cmp l) l.
Proof.
  induction l as [| x l IH]; simpl; [reflexivity |].
  rewrite insert_perm. apply perm_skip, IH.
Qed.

(** A comparator that subtracts keys, larger keys first. *)
Context (key : A -> Q) (Hcmp : forall a b, cmp a b == key b - key a).

Lemma insert_sorted x l :
  StronglySorted (descending key) l -> StronglySorted (descending key) (Js.insert cmp x l).
Proof.
  induction 1 as [| y l Hs IH Hall]; simpl.
  - constructor; constructor.
  - destruct (Qle_bool (cmp x y) 0) eqn:E.
    + apply Qle_bool_iff in E. rewrite Hcmp in E.
      constructor; [constructor; assumption |].
      constructor; [unfold descending; lra |].
      eapply Forall_impl; [exact Hall |].
      unfold descending. intros z Hz. lra.
    + assert (Hlt : ~ cmp x y <= 0).
      { intros H. apply Qle_bool_iff in H. congruence. }
      rewrite Hcmp in Hlt.
      constructor; [exact IH |].
      rewrite (insert_perm x l).
      constructor; [unfold descending; lra | exact Hall].
Qed.

Lemma sort_sorted l : StronglySorted (descending key) (Js.sort cmp l).
Proof.
  induction l as [| x l IH]; simpl; [constructor |].
  apply insert_sorted, IH.
Qed.
End SortFacts.

(** ** Category totals *)

Section Totals.
Context (livePrices : gmap Z Q).
Implicit Types (stocks : list Stock.t) (c : string) (m : Js.Map.t Q).

Lemma totals_snoc stocks s :
  Allocation.totals livePrices (stocks ++ [s]) =
  Allocation.accumulate livePrices (Allocation.totals livePrices stocks) s.
Proof. unfold Allocation.totals. rewrite fold_left_app. reflexivity. Qed.

Lemma category_total_snoc_eq stocks s :
  category_total livePrices (stocks ++ [s]) (Stock.category s) ==
  category_total livePrices stocks (Stock.category s)
  + Allocation.stock_value livePrices s.
Proof.
  unfold category_total. rewrite filter_app, fmap_app, Qsum_app.
  rewrite filter_cons_True by reflexivity. simpl. lra.
Qed.

Lemma category_total_snoc_ne stocks s c :
  Stock.category s <> c ->
  category_total livePrices (stocks ++ [s]) c = category_total livePrices stocks c.
Proof.
  intros Hne. unfold category_total. rewrite filter_app.
  rewrite filter_cons_False by exact Hne.
  rewrite filter_nil, app_nil_r. reflexivity.
Qed.

Lemma category_total_absent stocks c :
  c ∉ (Stock.category <$> stocks) -> category_total livePrices stocks c = 0.
Proof.
  intros Hnin. unfold category_total.
  induction stocks as [| s stocks IH]; [reflexivity |].
  rewrite fmap_cons in Hnin. apply not_elem_of_cons in Hnin as [Hne Hnin].
  rewrite filter_cons_False by congruence. apply IH, Hnin.
Qed.

(** What [categoryTotals.get] returns after the loop. *)
Lemma get_categoryTotals stocks c :
  match Js.Map.get (Allocation.categoryTotals livePrices stocks) c with
  | Some t => c ∈ (Stock.category <$> stocks)
              /\ t == category_total livePrices stocks c
  | None => c ∉ (Stock.category <$> stocks)
  end.
Proof.
  induction stocks as [| s stocks IH] using rev_ind.
  - simpl. apply not_elem_of_nil.
  - unfold Allocation.categoryTotals in *. rewrite totals_snoc.
    unfold Allocation.accumulate, Allocation.add_to_category. cbn [fst].
    rewrite fmap_app, fmap_cons.
    destruct (decide (Stock.category s = c)) as [<- | Hne].
    + rewrite get_set_eq. split.
      * apply elem_of_app. right. left.
      * rewrite category_total_snoc_eq.
        destruct (Js.Map.get _ _) as [t |] eqn:E.
        -- destruct IH as [_ IH]. rewrite or_zero_Some, IH. reflexivity.
        -- rewrite (category_total_absent _ _ IH). reflexivity.
    + rewrite get_set_ne by exact Hne.
      rewrite (category_total_snoc_ne _ _ _ Hne).
      destruct (Js.Map.get _ _) as [t |].
      * destruct IH as [Hin IH]. split; [| exact IH].
        apply elem_of_app. left. exact Hin.
      * rewrite elem_of_app, list_elem_of_singleton. intros [H | H]; congruence.
Qed.


Lemma keys_categoryTotals stocks :
  Js.Map.keys (Allocation.categoryTotals livePrices stocks) =
  Js.Set_.of_list (Stock.category <$> stocks).
Proof.
  unfold Allocation.categoryTotals.
  induction stocks as [| s stocks IH] using rev_ind.
  - reflexivity.
  - replace (Stock.category <$> (stocks ++ [s])%list)
      with ((Stock.category <$> stocks) ++ [Stock.category s])%list
      by (rewrite fmap_app; reflexivity).
    rewrite totals_snoc, of_list_snoc. cbn [Allocation.accumulate fst].
    unfold Allocation.add_to_category. rewrite keys_set, IH. reflexivity.
Qed.

Lemma sum_set m c v :
  Qsum (snd <$> Js.Map.set m c (Js.or_zero (Js.Map.get m c) + v))
  == Qsum (snd <$> m) + v.
Proof.
  induction m as [| [k t] m IH].
  - simpl. lra.
  - cbn [Js.Map.set Js.Map.get]. destruct (String.eqb k c).
    + rewrite !fmap_cons. cbn [Qsum fold_right snd].
      pose proof (or_zero_Some t) as Ht. lra.
    + rewrite !fmap_cons. cbn [Qsum fold_right snd].
      fold (Qsum (snd <$> Js.Map.set m c (Js.or_zero (Js.Map.get m c) + v))).
      rewrite IH. fold (Qsum (snd <$> m)). lra.
Qed.

(** The grand total is the sum of the totals of the categories. *)
Lemma sum_categoryTotals stocks :
  Qsum (snd <$> Allocation.categoryTotals livePrices stocks)
  == Allocation.totalPortfolioValue livePrices stocks.
Proof.
  unfold Allocation.categoryTotals, Allocation.totalPortfolioValue.
  induction stocks as [| s stocks IH] using rev_ind.
  - reflexivity.
  - rewrite totals_snoc. cbn [Allocation.accumulate fst snd].
    unfold Allocation.add_to_category. rewrite sum_set, IH. reflexivity.
Qed.

Lemma pieChartData_categoryTotals stocks :
  Allocation.pieChartData livePrices stocks =
  Allocation.categoryTotals livePrices stocks.
Proof.
  unfold Allocation.pieChartData, Allocation.categoryTotals, Js.Map.entries.
  induction stocks as [| s stocks IH] using rev_ind.
  - reflexivity.
  - rewrite totals_snoc, fold_left_app. cbn [fold_left Allocation.accumulate fst].
    rewrite IH. reflexivity.
Qed.
End Totals.

(** The loop that fills [categoryPercentages] maps the entries one by one. *)
Lemma set_fresh {V} (m : Js.Map.t V) k v :
  k ∉ Js.Map.keys m -> Js.Map.set m k v = (m ++ [(k, v)])%list.
Proof.
  unfold Js.Map.keys. induction m as [| [k' v'] m IH]; intros Hnin.
  - reflexivity.
  - rewrite fmap_cons in Hnin. apply not_elem_of_cons in Hnin as [Hne Hnin].
    cbn [Js.Map.set fst] in *. destruct (String.eqb_spec k' k); [congruence |].
    rewrite IH by exact Hnin. reflexivity.
Qed.


(** ** The allocation aggregator *)

Lemma find_absent (allocations : list TargetAllocation.t) (c : string) :
  c ∉ (TargetAllocation.category <$> allocations) ->
  Js.find (fun a => String.eqb (TargetAllocation.category a) c) allocations = None.
Proof.
  unfold Js.find. induction allocations as [| a l IH]; intros Hnin; [reflexivity |].
  rewrite fmap_cons in Hnin. apply not_elem_of_cons in Hnin as [Hne Hnin].
  simpl. destruct (String.eqb_spec (TargetAllocation.category a) c); [congruence |].
  apply IH, Hnin.
Qed.

Lemma categories_of_rows (cur : Js.Map.t Q) allocations (cats : list string) :
  CombinedAllocation.category <$> (Allocation.row cur allocations <$> cats) = cats.
Proof.
  induction cats as [| c cats IH]; [reflexivity |].
  rewrite !fmap_cons, IH. reflexivity.
Qed.

Lemma rows_perm (cur : Js.Map.t Q) allocations :
  Permutation (Allocation.combinedAllocationData cur allocations)
    (Allocation.row cur allocations <$>
       Js.Set_.of_list
         (Js.Map.keys cur ++ (TargetAllocation.category <$> allocations))%list).
Proof. unfold Allocation.combinedAllocationData. apply sort_perm. Qed.

Lemma row_of_rows (cur : Js.Map.t Q) allocations r :
  r ∈ Allocation.combinedAllocationData cur allocations ->
  r = Allocation.row cur allocations (CombinedAllocation.category r).
Proof.
  intros Hr. rewrite rows_perm in Hr.
  apply list_elem_of_fmap in Hr as (c & -> & _). reflexivity.
Qed.

(** C2, as worded, fails: a live price that is present and zero is not used. *)
Lemma C2_zero_live_price_counterexample :
  ZeroPrice.livePrices !! Stock.id ZeroPrice.stock = Some 0
  /\ Allocation.stock_value ZeroPrice.livePrices ZeroPrice.stock == 10000
  /\ spec_stock_value ZeroPrice.livePrices ZeroPrice.stock == 0
  /\ ~ (Allocation.stock_value ZeroPrice.livePrices ZeroPrice.stock
        == spec_stock_value ZeroPrice.livePrices ZeroPrice.stock)
  /\ reduced_entry <$>
       Allocation.currentAllocation ZeroPrice.livePrices [ZeroPrice.stock]
     = [("日本株", 100)].
Proof.
  repeat split; try reflexivity. intros H. vm_compute in H. discriminate.
Qed.

(** C2 (amended): [currentAllocation] values a stock at
    [live_price * quantity] when the live-price mapping has an entry for the
    stock's id and that price is not zero, and at
    [acquisition_price * quantity] otherwise (no entry, or an entry of zero);
    the total of a category is the sum of the values of the stocks whose own
    [category] field is that category, and a category without stock has no
    total; the pie chart shows the same totals. *)
Theorem C2_values_summed_per_category (livePrices : gmap Z Q) (stocks : list Stock.t) :
  (forall stock : Stock.t,
     match livePrices !! Stock.id stock with
     | Some livePrice =>
         (~ livePrice == 0 ->
          Allocation.stock_value livePrices stock = livePrice * Stock.quantity stock)
         /\ (livePrice == 0 ->
             Allocation.stock_value livePrices stock
             = Stock.quantity stock * Stock.acquisition_price stock)
     | None =>
         Allocation.stock_value livePrices stock
         = Stock.quantity stock * Stock.acquisition_price stock
     end)
  /\ (forall c, c ∈ (Stock.category <$> stocks) ->
        exists t, Js.Map.get (Allocation.categoryTotals livePrices stocks) c = Some t
                  /\ t == category_total livePrices stocks c)
  /\ (forall c, c ∉ (Stock.category <$> stocks) ->
        Js.Map.get (Allocation.categoryTotals livePrices stocks) c = None)
  /\ Allocation.pieChartData livePrices stocks
     = Allocation.categoryTotals livePrices stocks.
Proof.
  split; [| split; [| split; [| apply pieChartData_categoryTotals]]].
  - intros stock. unfold Allocation.stock_value.
    destruct (livePrices !! Stock.id stock) as [p |]; [| reflexivity].
    destruct (Js.truthy p) eqn:E.
    + apply truthy_true in E. split; [reflexivity | tauto].
    + apply truthy_false in E. split; [tauto | reflexivity].
  - intros c Hc. pose proof (get_categoryTotals livePrices stocks c) as H.
    destruct (Js.Map.get _ c) as [t |]; [| contradiction].
    exists t. split; [reflexivity | apply H].
  - intros c Hc. pose proof (get_categoryTotals livePrices stocks c) as H.
    destruct (Js.Map.get _ c) as [t |]; [| reflexivity].
    destruct H as [H _]. contradiction.
Qed.

Lemma C2_values_summed_per_category_witness :
  exists t, Js.Map.get
              (Allocation.categoryTotals Scenario.livePrices (Scenario.stocks 250))
              "米国株" = Some t
            /\ t == category_total Scenario.livePrices (Scenario.stocks 250) "米国株".
Proof.
  apply (proj1 (proj2 (C2_values_summed_per_category Scenario.livePrices
                         (Scenario.stocks 250)))).
  right. left.
Defined.

(** ** [currentAllocation] on binary64 numbers *)

Lemma is_nan_spec (x : float) :
  PrimFloat.is_nan x = match Prim2SF x with S754_nan => true | _ => false end.
Proof.
  unfold PrimFloat.is_nan. rewrite FloatAxioms.eqb_spec.
  destruct (Prim2SF x) as [s | s | | s m e]; try (destruct s; reflexivity).
  - reflexivity.
  - unfold SFeqb, SFcompare.
    destruct s; rewrite Z.compare_refl, Pos.compare_cont_refl; reflexivity.
Qed.

Lemma eqb_zero_spec (x : float) :
  PrimFloat.eqb x 0 = match Prim2SF x with S754_zero _ => true | _ => false end.
Proof.
  rewrite FloatAxioms.eqb_spec. change (Prim2SF 0) with (S754_zero false).
  destruct (Prim2SF x) as [s | s | | s m e]; try reflexivity; destruct s; reflexivity.
Qed.

Lemma truthy_present (x : float) : Binary64.truthy x = present x.
Proof.
  unfold Binary64.truthy, present.
  destruct (PrimFloat.eqb x 0), (PrimFloat.is_nan x); reflexivity.
Qed.

Lemma or_zero_present (t : float) :
  Binary64.or_zero (Some t) = if present t then t else 0%float.
Proof. unfold Binary64.or_zero. rewrite truthy_present. reflexivity. Qed.

Lemma kept_present (t : float) : kept t -> (if present t then t else 0%float) = t.
Proof.
  intros [Hnan Hneg]. unfold present. rewrite is_nan_spec, eqb_zero_spec.
  destruct (Prim2SF t) as [s | s | | s m e] eqn:E; try reflexivity.
  - destruct s; [congruence |]. cbn. apply Prim2SF_inj. rewrite E. reflexivity.
  - congruence.
Qed.

Section Totals64.
Context (livePrices : gmap Z float).
Implicit Types (stocks : list Binary64.Stock.t) (c : string).

Lemma value_worth (stock : Binary64.Stock.t) :
  Binary64.value livePrices stock = worth livePrices stock.
Proof.
  unfold Binary64.value, Binary64.stock_value, worth.
  destruct (livePrices !! Binary64.Stock.id stock) as [p |]; [| reflexivity].
  rewrite truthy_present. reflexivity.
Qed.

Lemma totals64_snoc stocks s :
  Binary64.totals livePrices (stocks ++ [s]) =
  Binary64.accumulate livePrices (Binary64.totals livePrices stocks) s.
Proof. unfold Binary64.totals. rewrite fold_left_app. reflexivity. Qed.

Lemma totalPortfolioValue64_sum stocks :
  Binary64.totalPortfolioValue livePrices stocks = portfolio_total64 livePrices stocks.
Proof.
  unfold Binary64.totalPortfolioValue, portfolio_total64, float_sum.
  induction stocks as [| s stocks IH] using rev_ind.
  - reflexivity.
  - rewrite totals64_snoc, fmap_app, fold_left_app. cbn [Binary64.accumulate snd].
    rewrite IH, value_worth. reflexivity.
Qed.

Lemma category_values_snoc_eq stocks s :
  category_values livePrices (stocks ++ [s]) (Binary64.Stock.category s)
  = (category_values livePrices stocks (Binary64.Stock.category s)
     ++ [worth livePrices s])%list.
Proof.
  unfold category_values. rewrite filter_app, fmap_app.
  rewrite filter_cons_True by reflexivity. reflexivity.
Qed.

Lemma category_values_snoc_ne stocks s c :
  Binary64.Stock.category s <> c ->
  category_values livePrices (stocks ++ [s]) c = category_values livePrices stocks c.
Proof.
  intros Hne. unfold category_values. rewrite filter_app, fmap_app.
  rewrite filter_cons_False by exact Hne. cbn. apply app_nil_r.
Qed.

Lemma category_values_absent stocks c :
  c ∉ (Binary64.Stock.category <$> stocks) -> category_values livePrices stocks c = [].
Proof.
  intros Hnin. unfold category_values.
  induction stocks as [| s stocks IH]; [reflexivity |].
  rewrite fmap_cons in Hnin. apply not_elem_of_cons in Hnin as [Hne Hnin].
  rewrite filter_cons_False by congruence. apply IH, Hnin.
Qed.

Lemma running_total_snoc (values : list float) (v : float) :
  running_total (values ++ [v])
  = PrimFloat.add (Binary64.or_zero (Some (running_total values))) v.
Proof.
  unfold running_total. rewrite fold_left_app, or_zero_present. reflexivity.
Qed.

Lemma get_categoryTotals64 stocks c :
  Js.Map.get (Binary64.categoryTotals livePrices stocks) c
  = if decide (c ∈ (Binary64.Stock.category <$> stocks))
    then Some (category_total64 livePrices stocks c)
    else None.
Proof.
  induction stocks as [| s stocks IH] using rev_ind.
  - rewrite decide_False by apply not_elem_of_nil. reflexivity.
  - unfold Binary64.categoryTotals in *. rewrite totals64_snoc.
    unfold Binary64.accumulate, Binary64.add_to_category. cbn [fst].
    rewrite value_worth.
    destruct (decide (Binary64.Stock.category s = c)) as [<- | Hne].
    + rewrite get_set_eq.
      rewrite decide_True by (rewrite fmap_app, elem_of_app; right; left).
      unfold category_total64 in *.
      rewrite category_values_snoc_eq, running_total_snoc. rewrite IH.
      destruct (decide (Binary64.Stock.category s ∈ (Binary64.Stock.category <$> stocks)))
        as [Hin | Hnin]; [reflexivity |].
      rewrite (category_values_absent _ _ Hnin). reflexivity.
    + rewrite get_set_ne by exact Hne. rewrite IH.
      unfold category_total64. rewrite (category_values_snoc_ne _ _ _ Hne).
      destruct (decide (c ∈ (Binary64.Stock.category <$> stocks))) as [Hin | Hnin].
      * rewrite decide_True by (rewrite fmap_app, elem_of_app; left; exact Hin).
        reflexivity.
      * rewrite decide_False; [reflexivity |].
        rewrite fmap_app, elem_of_app. intros [H | H]; [contradiction |].
        apply list_elem_of_singleton in H. congruence.
Qed.

Lemma keys_categoryTotals64 stocks :
  Js.Map.keys (Binary64.categoryTotals livePrices stocks) = categories64 stocks.
Proof.
  unfold Binary64.categoryTotals, categories64.
  induction stocks as [| s stocks IH] using rev_ind.
  - reflexivity.
  - replace (Binary64.Stock.category <$> (stocks ++ [s])%list)
      with ((Binary64.Stock.category <$> stocks) ++ [Binary64.Stock.category s])%list
      by (rewrite fmap_app; reflexivity).
    rewrite totals64_snoc, of_list_snoc. cbn [Binary64.accumulate fst].
    unfold Binary64.add_to_category. rewrite keys_set, IH. reflexivity.
Qed.
End Totals64.

Lemma entries_of_keys {V} (m : Js.Map.t V) (value : string -> V) :
  NoDup (Js.Map.keys m) ->
  (forall c, c ∈ Js.Map.keys m -> Js.Map.get m c = Some (value c)) ->
  m = (fun c => (c, value c)) <$> Js.Map.keys m.
Proof.
  unfold Js.Map.keys. induction m as [| [k v] m IH]; intros Hnd Hget.
  - reflexivity.
  - rewrite fmap_cons in *. cbn [fst] in *. apply NoDup_cons in Hnd as [Hk Hnd].
    rewrite fmap_cons. f_equal.
    + specialize (Hget k (list_elem_of_here _ _)). cbn [Js.Map.get] in Hget.
      rewrite String.eqb_refl in Hget. congruence.
    + apply IH; [exact Hnd |]. intros c Hc.
      specialize (Hget c (list_elem_of_further _ _ _ Hc)). cbn [Js.Map.get] in Hget.
      destruct (String.eqb_spec k c) as [-> | _]; [contradiction | exact Hget].
Qed.

Lemma percentages64_map (categoryTotals : Js.Map.t float) (total : float) :
  NoDup (Js.Map.keys categoryTotals) ->
  Binary64.percentages categoryTotals total
  = (fun e => (fst e, Binary64.percentage (snd e) total)) <$> categoryTotals.
Proof.
  unfold Binary64.percentages, Js.Map.entries, Js.Map.empty.
  set (f := fun e : string * float => (fst e, Binary64.percentage (snd e) total)).
  change (f <$> categoryTotals) with ([] ++ (f <$> categoryTotals))%list.
  assert (Hacc : forall x, x ∈ Js.Map.keys (@nil (string * float)) ->
                           x ∉ Js.Map.keys categoryTotals).
  { intros x Hx. apply elem_of_nil in Hx. contradiction. }
  revert Hacc. generalize (@nil (string * float)) as acc.
  induction categoryTotals as [| [c t] m IH]; intros acc Hacc Hnd.
  - simpl. rewrite app_nil_r. reflexivity.
  - unfold Js.Map.keys in *. rewrite fmap_cons in Hnd, Hacc.
    apply NoDup_cons in Hnd as [Hc Hnd]. cbn [fold_left fst] in *.
    rewrite set_fresh.
    + rewrite IH; [| | exact Hnd].
      * rewrite fmap_cons, <- app_assoc. reflexivity.
      * intros x Hx Hm. unfold Js.Map.keys in Hx.
        rewrite fmap_app, elem_of_app in Hx. destruct Hx as [Hx | Hx].
        -- apply (Hacc x Hx). right. exact Hm.
        -- rewrite fmap_cons, list_elem_of_singleton in Hx. simpl in Hx.
           subst x. contradiction.
    + intros Hin. apply (Hacc c Hin). left.
Qed.

Lemma running_total_from (values : list float) (t : float) :
  kept t -> Forall kept (partial_sums t values) ->
  fold_left (fun t v => PrimFloat.add (if present t then t else 0%float) v) values t
  = fold_left PrimFloat.add values t.
Proof.
  revert t. induction values as [| v values IH]; intros t Ht Hall; [reflexivity |].
  cbn [partial_sums] in Hall. apply Forall_cons in Hall as [Hv Hall].
  cbn [fold_left]. rewrite (kept_present t Ht). apply IH; assumption.
Qed.

(** C3: on binary64 numbers, as the code computes.  The map of an empty
    stock list is empty.  Let the portfolio total be the values of the
    stocks added up in list order: when it is zero, [currentAllocation] is
    the empty map; otherwise it holds, for each category of the stocks (in
    the order of first occurrence), [category_total / portfolio_total * 100],
    where the category total is the running total of the values of the
    stocks of that category.  The running total is their sum in list order
    whenever no total on the way is NaN or [-0]. *)
Theorem C3_empty_or_percentages (livePrices : gmap Z float)
    (stocks : list Binary64.Stock.t) :
  let total := portfolio_total64 livePrices stocks in
  Binary64.currentAllocation livePrices [] = []
  /\ (PrimFloat.eqb total 0 = true ->
      Binary64.currentAllocation livePrices stocks = [])
  /\ (PrimFloat.eqb total 0 = false ->
      Binary64.currentAllocation livePrices stocks
      = (fun c =>
           (c, PrimFloat.mul
                 (PrimFloat.div (category_total64 livePrices stocks c) total) 100))
          <$> categories64 stocks)
  /\ (forall c, Forall kept (partial_sums 0 (category_values livePrices stocks c)) ->
      category_total64 livePrices stocks c
      = float_sum (category_values livePrices stocks c)).
Proof.
  intros total.
  assert (Ht : Binary64.totalPortfolioValue livePrices stocks = total)
    by apply totalPortfolioValue64_sum.
  split; [reflexivity | split; [| split]].
  - intros H0. unfold Binary64.currentAllocation.
    unfold Binary64.totalPortfolioValue in Ht.
    destruct (Binary64.totals livePrices stocks) as [ct t]. cbn [snd] in Ht.
    rewrite Ht, H0. reflexivity.
  - intros Hne. unfold Binary64.currentAllocation.
    pose proof (keys_categoryTotals64 livePrices stocks) as Hkeys.
    pose proof (get_categoryTotals64 livePrices stocks) as Hget.
    unfold Binary64.totalPortfolioValue, Binary64.categoryTotals in *.
    destruct (Binary64.totals livePrices stocks) as [ct t]. cbn [fst snd] in *.
    rewrite Ht, Hne.
    assert (Hnd : NoDup (Js.Map.keys ct)) by (rewrite Hkeys; apply of_list_NoDup).
    rewrite (percentages64_map _ _ Hnd).
    rewrite (entries_of_keys ct (category_total64 livePrices stocks) Hnd) at 1.
    + rewrite <- list_fmap_compose, Hkeys. reflexivity.
    + intros c Hc. rewrite Hget. rewrite Hkeys in Hc.
      unfold categories64 in Hc. apply (proj1 (of_list_elem _ _)) in Hc.
      rewrite decide_True by exact Hc. reflexivity.
  - intros c Hall. apply running_total_from; [| exact Hall].
    split; discriminate.
Qed.

Lemma C3_empty_or_percentages_witness :
  Binary64.currentAllocation Scenario.no_prices64 Scenario.cancelling64 = []
  /\ Binary64.currentAllocation Scenario.livePrices64 Scenario.stocks64
     = (fun c =>
          (c, PrimFloat.mul
                (PrimFloat.div
                   (category_total64 Scenario.livePrices64 Scenario.stocks64 c)
                   (portfolio_total64 Scenario.livePrices64 Scenario.stocks64))
                100))
         <$> categories64 Scenario.stocks64
  /\ category_total64 Scenario.livePrices64 Scenario.stocks64 "日本株"
     = float_sum (category_values Scenario.livePrices64 Scenario.stocks64 "日本株").
Proof.
  split; [| split].
  - apply (C3_empty_or_percentages Scenario.no_prices64 Scenario.cancelling64).
    vm_compute. reflexivity.
  - apply (C3_empty_or_percentages Scenario.livePrices64 Scenario.stocks64).
    vm_compute. reflexivity.
  - apply (C3_empty_or_percentages Scenario.livePrices64 Scenario.stocks64).
    vm_compute. repeat constructor; discriminate.
Defined.

(** C4: [combinedAllocationData] has exactly one row for each category that
    is a key of the current map or the category of a target, and no other
    row; a row whose category has no holdings has [currentPercentage = 0],
    a row whose category has no target has [targetPercentage = 0]; a row
    whose category has holdings shows their percentage. *)
Theorem C4_one_row_per_category (currentAllocation : Js.Map.t Q)
    (allocations : list TargetAllocation.t) :
  let rows := Allocation.combinedAllocationData currentAllocation allocations in
  NoDup (CombinedAllocation.category <$> rows)
  /\ (forall c, c ∈ (CombinedAllocation.category <$> rows)
                <-> c ∈ Js.Map.keys currentAllocation
                    \/ c ∈ (TargetAllocation.category <$> allocations))
  /\ (forall r, r ∈ rows ->
        CombinedAllocation.category r ∉ Js.Map.keys currentAllocation ->
        CombinedAllocation.currentPercentage r = 0)
  /\ (forall r, r ∈ rows ->
        CombinedAllocation.category r ∉ (TargetAllocation.category <$> allocations) ->
        CombinedAllocation.targetPercentage r = 0)
  /\ (forall r p, r ∈ rows ->
        Js.Map.get currentAllocation (CombinedAllocation.category r) = Some p ->
        CombinedAllocation.currentPercentage r == p).
Proof.
  intros rows.
  assert (Hcats : Permutation (CombinedAllocation.category <$> rows)
            (Js.Set_.of_list
               (Js.Map.keys currentAllocation
                ++ (TargetAllocation.category <$> allocations))%list)).
  { unfold rows. rewrite rows_perm, categories_of_rows. reflexivity. }
  split; [| split; [| split; [| split]]].
  - rewrite Hcats. apply of_list_NoDup.
  - intros c. rewrite Hcats, of_list_elem, elem_of_app. reflexivity.
  - intros r Hr Hnin. rewrite (row_of_rows _ _ _ Hr). cbn.
    apply get_None in Hnin. rewrite Hnin. reflexivity.
  - intros r Hr Hnin. rewrite (row_of_rows _ _ _ Hr). cbn.
    unfold Allocation.target_of. rewrite (find_absent _ _ Hnin). reflexivity.
  - intros r p Hr Hp. rewrite (row_of_rows _ _ _ Hr).
    cbn [Allocation.row CombinedAllocation.currentPercentage
         CombinedAllocation.category].
    rewrite Hp. apply or_zero_Some.
Qed.

Lemma C4_one_row_per_category_witness :
  CombinedAllocation.targetPercentage
    (Allocation.row
       (Allocation.currentAllocation Scenario.livePrices (Scenario.stocks 250))
       Scenario.allocations "日本株") = 0.
Proof.
  apply (proj1 (proj2 (proj2 (proj2 (C4_one_row_per_category
           (Allocation.currentAllocation Scenario.livePrices (Scenario.stocks 250))
           Scenario.allocations))))).
  - apply list_elem_of_In. vm_compute. left. reflexivity.
  - intros H. apply list_elem_of_In in H. vm_compute in H.
    destruct H as [H | []]. discriminate.
Defined.

(** C5: the rows of [combinedAllocationData] are in descending order of
    [currentPercentage], whatever the inputs; in the scenario of the
    specification the table shows the row of "日本株" (86.96, target 0.00)
    before the row of "米国株" (13.04, target 50.00). *)
Theorem C5_rows_sorted_by_current_desc :
  (forall (currentAllocation : Js.Map.t Q) (allocations : list TargetAllocation.t),
     StronglySorted current_desc
       (Allocation.combinedAllocationData currentAllocation allocations))
  /\ (forall acquisition_price_B : Q,
        shown_row <$>
          Allocation.combinedAllocationData
            (Allocation.currentAllocation Scenario.livePrices
               (Scenario.stocks acquisition_price_B))
            Scenario.allocations
        = [("日本株", Some "86.96", Some "0.00");
           ("米国株", Some "13.04", Some "50.00")]).
Proof.
  split.
  - intros cur allocations. unfold Allocation.combinedAllocationData.
    apply (sort_sorted Allocation.by_current_desc
             CombinedAllocation.currentPercentage).
    intros a b. reflexivity.
  - intros acq. vm_compute. reflexivity.
Qed.

(** C6: in the scenario, stock A (no live price) is valued 10 * 1000 = 10000
    and stock B (live price 300) 5 * 300 = 1500; [currentAllocation] holds
    10000 / 11500 * 100 for "日本株" and 1500 / 11500 * 100 for "米国株", printed
    with two decimals as 86.96 and 13.04. *)
Theorem C6_scenario_composition (acquisition_price_B : Q) :
  let stocks := Scenario.stocks acquisition_price_B in
  Allocation.stock_value Scenario.livePrices Scenario.stockA == 10000
  /\ Allocation.stock_value Scenario.livePrices (Scenario.stockB acquisition_price_B)
     == 1500
  /\ reduced_entry <$> Allocation.currentAllocation Scenario.livePrices stocks
     = [("日本株", 2000 # 23); ("米国株", 300 # 23)]
  /\ shown_entry <$> Allocation.currentAllocation Scenario.livePrices stocks
     = [("日本株", Some "86.96"); ("米国株", Some "13.04")].
Proof.
  intros stocks. repeat split; vm_compute; reflexivity.
Qed.

(** The scenario on binary64 numbers: the two values, the totals as the
    loop adds them up, and the percentages as the table prints them. *)
Remark binary64_scenario (acquisition_price_B : float) :
  let valueA := Binary64.stock_value None 10 1000 in
  let valueB := Binary64.stock_value (Some 300%float) 5 acquisition_price_B in
  let totalPortfolioValue := PrimFloat.add (PrimFloat.add 0 valueA) valueB in
  let japan := PrimFloat.add (Binary64.or_zero None) valueA in
  let us := PrimFloat.add (Binary64.or_zero None) valueB in
  Binary64.exact valueA = Some 10000
  /\ Binary64.exact valueB = Some 1500
  /\ Binary64.shown (Binary64.percentage japan totalPortfolioValue) = Some "86.96"
  /\ Binary64.shown (Binary64.percentage us totalPortfolioValue) = Some "13.04".
Proof. repeat split; vm_compute; reflexivity. Qed.

(** ** A live price of zero *)

Section SameValues.
Context (prices1 prices2 : gmap Z Q).
Hypothesis same : forall s, Allocation.stock_value prices1 s = Allocation.stock_value prices2 s.

Lemma totals_same stocks :
  Allocation.totals prices1 stocks = Allocation.totals prices2 stocks.
Proof.
  induction stocks as [| s stocks IH] using rev_ind; [reflexivity |].
  rewrite !totals_snoc, IH. unfold Allocation.accumulate. rewrite same.
  reflexivity.
Qed.

Lemma currentAllocation_same stocks :
  Allocation.currentAllocation prices1 stocks
  = Allocation.currentAllocation prices2 stocks.
Proof. unfold Allocation.currentAllocation. rewrite totals_same. reflexivity. Qed.

Lemma pieChartData_same stocks :
  Allocation.pieChartData prices1 stocks = Allocation.pieChartData prices2 stocks.
Proof.
  rewrite !pieChartData_categoryTotals. unfold Allocation.categoryTotals.
  rewrite totals_same. reflexivity.
Qed.
End SameValues.

Lemma stock_value_delete_zero (livePrices : gmap Z Q) (i : Z) (p : Q) :
  livePrices !! i = Some p -> p == 0 ->
  forall s, Allocation.stock_value livePrices s
            = Allocation.stock_value (delete i livePrices) s.
Proof.
  intros Hi Hp s. unfold Allocation.stock_value.
  destruct (decide (i = Stock.id s)) as [<- | Hne].
  - rewrite Hi, lookup_delete_eq. apply truthy_false in Hp. rewrite Hp. reflexivity.
  - rewrite lookup_delete_ne by exact Hne. reflexivity.
Qed.

(** C8, as worded, fails for the profit and loss of the stock list: there a
    live price of zero is used, the stock is worth 0 and not its cost, and
    the total differs from the one without the entry. *)
Lemma C8_profit_loss_counterexample :
  ZeroPrice.livePrices !! Stock.id ZeroPrice.stock = Some 0
  /\ StockListPage.marketValue ZeroPrice.livePrices ZeroPrice.stock = Some (0 * 10)
  /\ StockListPage.totalProfitLoss ZeroPrice.livePrices [ZeroPrice.stock] == - 10000
  /\ StockListPage.totalProfitLoss (delete 1%Z ZeroPrice.livePrices) [ZeroPrice.stock] == 0
  /\ ~ (StockListPage.totalProfitLoss ZeroPrice.livePrices [ZeroPrice.stock]
        == StockListPage.totalProfitLoss (delete 1%Z ZeroPrice.livePrices)
             [ZeroPrice.stock]).
Proof.
  repeat split; try reflexivity. intros H. vm_compute in H. discriminate.
Qed.

(** C8 (amended): for a stock whose id maps to a live price of zero,
    [currentAllocation] and the pie-chart aggregation, which test the price
    for truthiness, value the stock at [quantity * acquisition_price], and
    both return what they return without the entry; the profit and loss of the
    stock list tests the entry for presence and takes the market value
    [0 * quantity]. *)
Theorem C8_zero_live_price (livePrices : gmap Z Q) (stock : Stock.t) (p : Q) :
  livePrices !! Stock.id stock = Some p -> p == 0 ->
  Allocation.stock_value livePrices stock
  = Stock.quantity stock * Stock.acquisition_price stock
  /\ (forall stocks,
        Allocation.currentAllocation livePrices stocks
        = Allocation.currentAllocation (delete (Stock.id stock) livePrices) stocks)
  /\ (forall stocks,
        Allocation.pieChartData livePrices stocks
        = Allocation.pieChartData (delete (Stock.id stock) livePrices) stocks)
  /\ StockListPage.marketValue livePrices stock = Some (p * Stock.quantity stock).
Proof.
  intros Hi Hp. split; [| split; [| split]].
  - unfold Allocation.stock_value. rewrite Hi.
    apply truthy_false in Hp. rewrite Hp. reflexivity.
  - intros stocks. apply currentAllocation_same.
    apply (stock_value_delete_zero _ _ _ Hi Hp).
  - intros stocks. apply pieChartData_same.
    apply (stock_value_delete_zero _ _ _ Hi Hp).
  - unfold StockListPage.marketValue. rewrite Hi. reflexivity.
Qed.

Lemma C8_zero_live_price_witness :
  Allocation.stock_value ZeroPrice.livePrices ZeroPrice.stock = 10 * 1000
  /\ (forall stocks,
        Allocation.currentAllocation ZeroPrice.livePrices stocks
        = Allocation.currentAllocation (delete 1%Z ZeroPrice.livePrices) stocks)
  /\ (forall stocks,
        Allocation.pieChartData ZeroPrice.livePrices stocks
        = Allocation.pieChartData (delete 1%Z ZeroPrice.livePrices) stocks)
  /\ StockListPage.marketValue ZeroPrice.livePrices ZeroPrice.stock = Some (0 * 10).
Proof.
  apply (C8_zero_live_price ZeroPrice.livePrices ZeroPrice.stock 0); reflexivity.
Defined.

(** ** The selections of the edit form *)

Lemma includes_elem (l : list Z) (x : Z) : Js.includes l x = true <-> x ∈ l.
Proof.
  unfold Js.includes. rewrite existsb_exists. split.
  - intros (y & Hy & E). apply Z.eqb_eq in E. subst y. apply list_elem_of_In, Hy.
  - intros H. exists x. split; [apply list_elem_of_In, H | apply Z.eqb_refl].
Qed.

Lemma parent_missing_true all parents c :
  StockListPage.parent_missing all parents c = true <->
  exists s p, StockListPage.find_strategy all c = Some s
              /\ Strategy.parent_id s = Some p /\ p ∉ parents.
Proof.
  unfold StockListPage.parent_missing.
  destruct (StockListPage.find_strategy all c) as [s |].
  - destruct (Strategy.parent_id s) as [p |] eqn:Ep.
    + destruct (Js.includes parents p) eqn:E; simpl.
      * apply includes_elem in E. split; [discriminate |].
        intros (s' & p' & Hs & Hp & Hn). congruence.
      * split; [| reflexivity]. intros _. exists s, p.
        split; [reflexivity | split; [exact Ep |]].
        intros H. apply includes_elem in H. congruence.
    + split; [discriminate |]. intros (s' & p' & Hs & Hp & _). congruence.
  - split; [discriminate |]. intros (s' & p' & Hs & _). discriminate.
Qed.

Lemma parent_selected_true all ids c :
  StockListPage.parent_selected all ids c = true <->
  exists s p, StockListPage.find_strategy all c = Some s
              /\ Strategy.parent_id s = Some p /\ p ∈ ids.
Proof.
  unfold StockListPage.parent_selected.
  destruct (StockListPage.find_strategy all c) as [s |].
  - destruct (Strategy.parent_id s) as [p |] eqn:Ep.
    + rewrite includes_elem. split.
      * intros H. exists s, p. auto.
      * intros (s' & p' & Hs & Hp & Hin). congruence.
    + split; [discriminate |]. intros (s' & p' & Hs & Hp & _). congruence.
  - split; [discriminate |]. intros (s' & p' & Hs & _). discriminate.
Qed.

Lemma first_orphan_Some all parents children :
  (exists c, StockListPage.first_orphan all parents children = Some c) <->
  exists c, c ∈ children /\ StockListPage.parent_missing all parents c = true.
Proof.
  induction children as [| c children IH]; simpl.
  - split; [intros [c H]; discriminate |].
    intros (c & H & _). apply elem_of_nil in H. contradiction.
  - destruct (StockListPage.parent_missing all parents c) eqn:E.
    + split; intros _; [exists c; split; [left | exact E] | eauto].
    + rewrite IH. split.
      * intros (c' & Hin & Hm). exists c'. split; [right; exact Hin | exact Hm].
      * intros (c' & Hin & Hm). apply elem_of_cons in Hin as [-> | Hin];
          [congruence | eauto].
Qed.

(** C1, as worded, fails: a child strategy that sits in the parent selection
    is never checked.  The stock list was fetched while strategy 2 was
    top-level; the page then loads the strategies, where 2 has parent 1, and
    the stock is edited: strategy 2 goes to the parent selection, the
    candidate set is {2}, and the request goes out (here the server refuses
    it). *)
Lemma C1_child_in_parent_selection_counterexample :
  let st := StockListPage.handleEditClick Scenario.aapl_before_reparenting
              Scenario.loaded in
  StockListPage.editingSelectedParentStrategyIds st = [2%Z]
  /\ StockListPage.editingSelectedChildStrategyIds st = []
  /\ StockListPage.find_strategy (StockListPage.allStrategies st) 2
     = Some Scenario.growth_tech
  /\ Strategy.parent_id Scenario.growth_tech = Some 1%Z
  /\ StockListPage.allSelectedStrategyIds
       (StockListPage.editingSelectedParentStrategyIds st)
       (StockListPage.editingSelectedChildStrategyIds st) = [2%Z]
  /\ StockListPage.handleUpdateSubmit (fun _ _ => false) st
     = (st, [StockListPage.PutStock 7
               (StockListPage.mkBody (Some Scenario.aapl_before_reparenting) [2%Z]);
             StockListPage.ConsoleError "Error updating stock:";
             StockListPage.Alert StockListPage.msg_update_failed]).
Proof. repeat split. Qed.

(** C1 (amended): while a stock is edited, if the child selection contains
    an id that resolves, in the loaded strategies, to a strategy with a
    non-null [parent_id] that is not in the parent selection, then
    [handleUpdateSubmit] only shows the alert that names the rule: the state
    is unchanged and no request is sent.  If there is no such child, the PUT
    request is sent with the union of both selections.  Child selection {2}
    (strategy 2 has parent 1) with no parent selected is rejected; parents
    {1} with children {2} are accepted and {1, 2} is sent.  Ids in the
    parent selection are not checked. *)
Theorem C1_orphan_child_rejected :
  (forall put_ok st stockId,
     StockListPage.editingStockId st = Some stockId -> stockId <> 0%Z ->
     ((exists c, orphan st c) ->
      StockListPage.handleUpdateSubmit put_ok st
      = (st, [StockListPage.Alert StockListPage.msg_parent_not_selected]))
     /\ (~ (exists c, orphan st c) ->
         exists st' rest,
           StockListPage.handleUpdateSubmit put_ok st
           = (st', StockListPage.PutStock stockId
                     (StockListPage.mkBody (StockListPage.editFormData st)
                        (StockListPage.allSelectedStrategyIds
                           (StockListPage.editingSelectedParentStrategyIds st)
                           (StockListPage.editingSelectedChildStrategyIds st)))
                   :: rest)))
  /\ (forall put_ok,
        StockListPage.handleUpdateSubmit put_ok (Scenario.editing [] [2%Z])
        = (Scenario.editing [] [2%Z],
           [StockListPage.Alert StockListPage.msg_parent_not_selected]))
  /\ StockListPage.handleUpdateSubmit (fun _ _ => true) (Scenario.editing [1%Z] [2%Z])
     = (StockListPage.handleCancelClick (Scenario.editing [1%Z] [2%Z]),
        [StockListPage.PutStock 7
           (StockListPage.mkBody (Some Scenario.aapl) [1%Z; 2%Z]);
         StockListPage.FetchStocks]).
Proof.
  split; [| split; [intros put_ok; reflexivity | reflexivity]].
  intros put_ok st stockId Hid Hnz.
  unfold StockListPage.handleUpdateSubmit. rewrite Hid.
  destruct (Z.eqb_spec stockId 0) as [? | _]; [contradiction |].
  pose proof (first_orphan_Some (StockListPage.allStrategies st)
                (StockListPage.editingSelectedParentStrategyIds st)
                (StockListPage.editingSelectedChildStrategyIds st)) as Hfo.
  destruct (StockListPage.first_orphan _ _ _) as [c |].
  - split; [reflexivity |]. intros Hno. exfalso. apply Hno.
    destruct Hfo as [Hfo _]. destruct Hfo as (c' & Hin & Hm); [eauto |].
    exists c'. split; [exact Hin | apply parent_missing_true, Hm].
  - split.
    + intros (c & Hin & Hm). apply parent_missing_true in Hm.
      destruct Hfo as [_ Hfo]. destruct Hfo as [c' Hc']; [eauto | discriminate].
    + intros _. destruct (put_ok stockId _); eauto.
Qed.

Lemma C1_orphan_child_rejected_witness :
  StockListPage.handleUpdateSubmit (fun _ _ => true) (Scenario.editing [3%Z] [2%Z])
  = (Scenario.editing [3%Z] [2%Z],
     [StockListPage.Alert StockListPage.msg_parent_not_selected])
  /\ exists st' rest,
       StockListPage.handleUpdateSubmit (fun _ _ => true) (Scenario.editing [1%Z] [2%Z])
       = (st', StockListPage.PutStock 7
                 (StockListPage.mkBody (Some Scenario.aapl) [1%Z; 2%Z]) :: rest).
Proof.
  split.
  - apply (proj1 C1_orphan_child_rejected (fun _ _ => true)
             (Scenario.editing [3%Z] [2%Z]) 7%Z); [reflexivity | discriminate |].
    exists 2%Z. split; [left |].
    exists Scenario.growth_tech, 1%Z. split; [reflexivity | split; [reflexivity |]].
    intros H. apply list_elem_of_In in H. destruct H as [H | []]. discriminate.
  - apply (proj1 C1_orphan_child_rejected (fun _ _ => true)
             (Scenario.editing [1%Z] [2%Z]) 7%Z); [reflexivity | discriminate |].
    intros (c & Hin & s & p & Hs & Hp & Hn).
    apply list_elem_of_In in Hin. destruct Hin as [<- | []].
    vm_compute in Hs. inversion Hs; subst s. vm_compute in Hp.
    inversion Hp; subst p. apply Hn. left.
Defined.

(** C7: whenever [handleUpdateSubmit] sends the update request, the
    [strategy_ids] of its body hold every selected parent id and every
    selected child id, nothing else, and each id once. *)
Theorem C7_strategy_ids_deduplicated put_ok (st st' : StockListPage.State)
    (effects : list StockListPage.Effect) (stockId : Z)
    (body : StockListPage.UpdateBody) :
  StockListPage.handleUpdateSubmit put_ok st = (st', effects) ->
  StockListPage.PutStock stockId body ∈ effects ->
  NoDup (StockListPage.strategy_ids body)
  /\ forall x, x ∈ StockListPage.strategy_ids body
               <-> x ∈ StockListPage.editingSelectedParentStrategyIds st
                   \/ x ∈ StockListPage.editingSelectedChildStrategyIds st.
Proof.
  unfold StockListPage.handleUpdateSubmit. intros Hrun Hput.
  assert (Hbody : StockListPage.strategy_ids body
                  = StockListPage.allSelectedStrategyIds
                      (StockListPage.editingSelectedParentStrategyIds st)
                      (StockListPage.editingSelectedChildStrategyIds st)).
  { destruct (StockListPage.editingStockId st) as [i |].
    - destruct (i =? 0)%Z.
      + inversion Hrun; subst. apply elem_of_nil in Hput. contradiction.
      + destruct (StockListPage.first_orphan _ _ _).
        * inversion Hrun; subst.
          apply list_elem_of_singleton in Hput. discriminate.
        * destruct (put_ok i _); inversion Hrun; subst;
            repeat (apply elem_of_cons in Hput as [Hput | Hput];
                    [try discriminate; inversion Hput; reflexivity |]);
            apply elem_of_nil in Hput; contradiction.
    - inversion Hrun; subst. apply elem_of_nil in Hput. contradiction. }
  rewrite Hbody. unfold StockListPage.allSelectedStrategyIds. split.
  - apply of_list_NoDup.
  - intros x. rewrite of_list_elem, elem_of_app. reflexivity.
Qed.

Lemma C7_strategy_ids_deduplicated_witness :
  NoDup [1%Z; 2%Z]
  /\ forall x, x ∈ [1%Z; 2%Z] <-> x ∈ [1%Z; 2%Z; 1%Z] \/ x ∈ [2%Z; 2%Z].
Proof.
  apply (C7_strategy_ids_deduplicated (fun _ _ => true)
           (Scenario.editing [1%Z; 2%Z; 1%Z] [2%Z; 2%Z])
           (StockListPage.handleCancelClick (Scenario.editing [1%Z; 2%Z; 1%Z] [2%Z; 2%Z]))
           [StockListPage.PutStock 7
              (StockListPage.mkBody (Some Scenario.aapl) [1%Z; 2%Z]);
            StockListPage.FetchStocks]
           7%Z (StockListPage.mkBody (Some Scenario.aapl) [1%Z; 2%Z])).
  - reflexivity.
  - left.
Defined.

(** C9: after a change of the parent selection the parent selection is the
    new one, every child still selected resolves to a strategy whose parent
    is selected, and a child is still selected exactly when it was selected
    before and its parent is in the new parent selection: the children whose
    parent is no longer selected are removed, the others are kept. *)
Theorem C9_parent_change_prunes_children (ids : list Z) (st : StockListPage.State) :
  let st' := StockListPage.handleEditingParentStrategyChange ids st in
  StockListPage.editingSelectedParentStrategyIds st' = ids
  /\ StockListPage.allStrategies st' = StockListPage.allStrategies st
  /\ children_have_parents st'
  /\ forall c,
       c ∈ StockListPage.editingSelectedChildStrategyIds st'
       <-> c ∈ StockListPage.editingSelectedChildStrategyIds st
           /\ exists s p,
                StockListPage.find_strategy (StockListPage.allStrategies st) c = Some s
                /\ Strategy.parent_id s = Some p /\ p ∈ ids.
Proof.
  intros st'.
  assert (Hkeep : forall c,
    c ∈ StockListPage.editingSelectedChildStrategyIds st'
    <-> c ∈ StockListPage.editingSelectedChildStrategyIds st
        /\ exists s p,
             StockListPage.find_strategy (StockListPage.allStrategies st) c = Some s
             /\ Strategy.parent_id s = Some p /\ p ∈ ids).
  { intros c. unfold st'. cbn.
    rewrite list_elem_of_In, filter_In, <- list_elem_of_In, parent_selected_true.
    reflexivity. }
  split; [reflexivity | split; [reflexivity | split; [| exact Hkeep]]].
  intros c Hc. apply Hkeep in Hc as [_ Hc]. exact Hc.
Qed.

(** ** Fetching the stocks *)

Lemma is_digit_decimal (c : ascii) : App.is_digit c = bool_decide (c ∈ decimal_digits).
Proof. destruct c as [[] [] [] [] [] [] [] []]; vm_compute; reflexivity. Qed.

Lemma all_digits_only_digits (ticker : string) :
  App.all_digits ticker = true <-> only_digits ticker.
Proof.
  unfold only_digits, App.all_digits. destruct ticker as [| c ticker].
  - split; [discriminate | intros [H _]; congruence].
  - rewrite forallb_forall, Forall_forall. split.
    + intros H. split; [discriminate |]. intros x Hx.
      apply list_elem_of_In, H in Hx. rewrite is_digit_decimal in Hx.
      apply bool_decide_eq_true in Hx. exact Hx.
    + intros [_ H] x Hx. rewrite is_digit_decimal.
      apply bool_decide_eq_true, H, list_elem_of_In, Hx.
Qed.

Lemma needs_category (s : Stock.t) :
  Js.str_falsy (Stock.category s) || String.eqb (Stock.category s) App.uncategorized
  = true <-> uncategorized s.
Proof.
  unfold uncategorized, Js.str_falsy. rewrite orb_true_iff, !String.eqb_eq.
  reflexivity.
Qed.

Lemma heuristic_categorized (ticker : string) (s : Stock.t) :
  categorized (App.with_category (heuristic_category ticker) s).
Proof.
  unfold categorized, heuristic_category. cbn.
  destruct (App.all_digits ticker); split; intros H; vm_compute in H; discriminate.
Qed.

Lemma fix_name_keeps (backend : App.Backend) (s : Stock.t) :
  let s1 := fst (fst (App.fix_name backend s)) in
  Stock.id s1 = Stock.id s /\ Stock.ticker s1 = Stock.ticker s
  /\ Stock.category s1 = Stock.category s.
Proof.
  unfold App.fix_name.
  destruct (Js.str_falsy (Stock.name s) || String.eqb (Stock.name s) App.unknown_name).
  - cbn. destruct (App.get_name backend (Stock.ticker s)); cbn; auto.
  - cbn. auto.
Qed.

(** The callback on one stock. *)
Lemma process_category_fixed (backend : App.Backend) (s : Stock.t) :
  category_fixed (snd (App.process backend s)) s (fst (App.process backend s)).
Proof.
  unfold App.process, App.bind.
  pose proof (fix_name_keeps backend s) as (Hid & Htk & Hcat).
  destruct (App.fix_name backend s) as [[s1 needs] reqs]. cbn [fst snd] in *.
  unfold App.fix_category.
  destruct (Js.str_falsy (Stock.category s1)
            || String.eqb (Stock.category s1) App.uncategorized) eqn:E.
  - apply needs_category in E. unfold uncategorized in E. rewrite Hcat in E.
    cbn. repeat split; try assumption; try tauto.
    apply elem_of_app. right. rewrite Hid. left.
  - assert (Hno : ~ uncategorized s1).
    { intros H. apply needs_category in H. congruence. }
    unfold uncategorized in Hno. rewrite Hcat in Hno.
    destruct needs; cbn; repeat split; try assumption; tauto.
Qed.

Lemma process_categorized (backend : App.Backend) (s : Stock.t) :
  categorized (fst (App.process backend s)).
Proof.
  unfold App.process, App.bind.
  destruct (App.fix_name backend s) as [[s1 needs] reqs].
  unfold App.fix_category.
  destruct (Js.str_falsy (Stock.category s1)
            || String.eqb (Stock.category s1) App.uncategorized) eqn:E.
  - cbn. apply (heuristic_categorized (Stock.ticker s) s1).
  - assert (Hc : categorized s1).
    { apply orb_false_iff in E as [E1 E2]. unfold Js.str_falsy in E1.
      apply String.eqb_neq in E1, E2. split; assumption. }
    destruct needs; cbn; exact Hc.
Qed.

Lemma category_fixed_more (requests requests' : list App.Request) (s s' : Stock.t) :
  (forall r, r ∈ requests -> r ∈ requests') ->
  category_fixed requests s s' -> category_fixed requests' s s'.
Proof.
  intros Hsub (Hid & Htk & Hfix & Hkeep). repeat split; try assumption.
  - apply Hfix. assumption.
  - apply Hsub, Hfix. assumption.
Qed.

(** C10: when the stocks are fetched, the new list has one stock for each
    fetched stock, in the same order; a fetched stock whose category is empty
    or "未分類" gets "日本株" when its ticker is made of digits only (one or
    more) and "米国株" otherwise, and a PUT request with the rewritten stock
    is sent for it; a stock with another category keeps it.  So no stock of
    the list has an empty or "未分類" category: not after a fetch, and, when
    the fetch fails and the list is kept, not if none had before. *)
Theorem C10_fetched_stocks_categorized (backend : App.Backend) (stocks : list Stock.t) :
  let stocks' := fst (App.fetchStocks backend stocks) in
  let requests := snd (App.fetchStocks backend stocks) in
  (forall fetchedStocks,
     App.get_stocks backend = Some fetchedStocks ->
     Forall2 (category_fixed requests) fetchedStocks stocks'
     /\ Forall categorized stocks')
  /\ (App.get_stocks backend = None -> stocks' = stocks)
  /\ (Forall categorized stocks -> Forall categorized stocks')
  /\ (forall ticker,
        (only_digits ticker -> heuristic_category ticker = App.japanese)
        /\ (~ only_digits ticker -> heuristic_category ticker = App.us)).
Proof.
  intros stocks' requests.
  assert (Hfetched : forall fetchedStocks,
            App.get_stocks backend = Some fetchedStocks ->
            Forall2 (category_fixed requests) fetchedStocks stocks'
            /\ Forall categorized stocks').
  { intros fetched Hget. unfold stocks', requests, App.fetchStocks.
    rewrite Hget. cbn [fst snd]. split.
    - apply Forall2_fmap_r, Forall2_fmap_r, Forall_Forall2_diag, Forall_forall.
      intros s Hs. eapply category_fixed_more; [| apply process_category_fixed].
      intros r Hr. right. apply list_elem_of_In, in_concat.
      exists (snd (App.process backend s)).
      split; [| apply list_elem_of_In, Hr].
      apply list_elem_of_In, list_elem_of_fmap_2, list_elem_of_fmap_2, Hs.
    - apply Forall_fmap, Forall_fmap, Forall_forall. intros s _.
      apply process_categorized. }
  split; [exact Hfetched | split; [| split]].
  - intros Hget. unfold stocks', App.fetchStocks. rewrite Hget. reflexivity.
  - intros Hprev. destruct (App.get_stocks backend) as [fetched |] eqn:Hget.
    + apply (Hfetched fetched eq_refl).
    + unfold stocks', App.fetchStocks. rewrite Hget. exact Hprev.
  - intros ticker. unfold heuristic_category.
    pose proof (all_digits_only_digits ticker) as Hd.
    destruct (App.all_digits ticker); split; intros H; try reflexivity.
    + exfalso. apply H, Hd. reflexivity.
    + apply Hd in H. discriminate.
Qed.

Lemma C10_fetched_stocks_categorized_witness :
  let fetched := Stock.mk 3 "7203" "Toyota" 100 2000 "未分類" [] in
  let shown := Stock.mk 3 "7203" "Toyota" 100 2000 "日本株" [] in
  Forall2 (category_fixed [App.GetStocks; App.PutStock 3 shown]) [fetched] [shown]
  /\ Forall categorized [shown].
Proof.
  exact (proj1 (C10_fetched_stocks_categorized
                  (App.mkBackend
                     (Some [Stock.mk 3 "7203" "Toyota" 100 2000 "未分類" []])
                     (fun _ => None) (fun _ _ => true)) [])
           [Stock.mk 3 "7203" "Toyota" 100 2000 "未分類" []] eq_refl).
Defined.

(** * Further properties of the code *)

(** ** The allocation aggregator, continued *)




Lemma Qsum_nonneg (l : list Q) : Forall (fun x => 0 <= x) l -> 0 <= Qsum l.
Proof.
  induction 1 as [| x l Hx _ IH]; simpl; [apply Qle_refl | lra].
Qed.





Lemma of_list_nil_iff {A} `{EqDecision A} (l : list A) :
  Js.Set_.of_list l = [] <-> l = [].
Proof.
  split; [| intros ->; reflexivity].
  intros H. destruct l as [| x l]; [reflexivity |].
  assert (Hx : x ∈ Js.Set_.of_list (x :: l)) by (apply of_list_elem; left).
  rewrite H in Hx. apply elem_of_nil in Hx. contradiction.
Qed.

(** X3: the pie chart has one slice per category, named in the order in
    which the categories first occur in the stock list, and it is drawn
    exactly when there is at least one stock (whatever the stocks are
    worth). *)
Theorem X3_pie_chart_slices (livePrices : gmap Z Q) (stocks : list Stock.t) :
  fst <$> Allocation.pieChartData livePrices stocks
  = Js.Set_.of_list (Stock.category <$> stocks)
  /\ NoDup (fst <$> Allocation.pieChartData livePrices stocks)
  /\ (AssetCompositionPage.chart_shown (Allocation.pieChartData livePrices stocks) = true
      <-> stocks <> []).
Proof.
  assert (Hnames : fst <$> Allocation.pieChartData livePrices stocks
                   = Js.Set_.of_list (Stock.category <$> stocks)).
  { rewrite pieChartData_categoryTotals. apply keys_categoryTotals. }
  split; [exact Hnames | split].
  - rewrite Hnames. apply of_list_NoDup.
  - unfold AssetCompositionPage.chart_shown. rewrite Nat.ltb_lt.
    rewrite <- (length_fmap fst), Hnames. split.
    + intros Hlen ->. simpl in Hlen. lia.
    + intros Hne. destruct (Js.Set_.of_list (Stock.category <$> stocks)) eqn:E.
      * apply (proj1 (of_list_nil_iff _)) in E.
        destruct stocks; [contradiction | rewrite fmap_cons in E; discriminate].
      * simpl. lia.
Qed.

(** X4: every slice of the pie chart gets one of the six colours, and the
    colours repeat every six slices. *)
Theorem X4_every_slice_has_a_colour (index : nat) :
  (exists colour, AssetCompositionPage.cell_fill index = Some colour
                  /\ colour ∈ AssetCompositionPage.COLORS)
  /\ AssetCompositionPage.cell_fill (index + 6) = AssetCompositionPage.cell_fill index.
Proof.
  unfold AssetCompositionPage.cell_fill. split.
  - assert (Hlt : (index mod length AssetCompositionPage.COLORS
                   < length AssetCompositionPage.COLORS)%nat).
    { apply Nat.mod_upper_bound. discriminate. }
    apply lookup_lt_is_Some in Hlt as [colour Hc].
    exists colour. split; [exact Hc |]. apply list_elem_of_lookup. eauto.
  - f_equal. change (length AssetCompositionPage.COLORS) with 6%nat.
    replace (index + 6)%nat with (index + 1 * 6)%nat by lia.
    apply Nat.Div0.mod_add.
Qed.

Lemma find_unique (allocations : list TargetAllocation.t) (a : TargetAllocation.t) :
  NoDup (TargetAllocation.category <$> allocations) -> a ∈ allocations ->
  Js.find (fun a' => String.eqb (TargetAllocation.category a')
                       (TargetAllocation.category a)) allocations = Some a.
Proof.
  unfold Js.find. induction allocations as [| b l IH]; intros Hnd Hin.
  - apply elem_of_nil in Hin. contradiction.
  - rewrite fmap_cons in Hnd. apply NoDup_cons in Hnd as [Hb Hnd]. simpl.
    apply elem_of_cons in Hin as [-> | Hin].
    + rewrite String.eqb_refl. reflexivity.
    + destruct (String.eqb_spec (TargetAllocation.category b)
                  (TargetAllocation.category a)) as [E | _]; [| apply IH; assumption].
      exfalso. apply Hb. rewrite E. apply list_elem_of_fmap_2, Hin.
Qed.

(** X5: when the targets have distinct categories, every stored target is
    shown: the table has a row of its category whose target percentage is
    the stored one. *)
Theorem X5_every_target_is_shown (currentAllocation : Js.Map.t Q)
    (allocations : list TargetAllocation.t) (a : TargetAllocation.t) :
  NoDup (TargetAllocation.category <$> allocations) -> a ∈ allocations ->
  exists r,
    r ∈ Allocation.combinedAllocationData currentAllocation allocations
    /\ CombinedAllocation.category r = TargetAllocation.category a
    /\ CombinedAllocation.targetPercentage r == TargetAllocation.percentage a.
Proof.
  intros Hnd Hin.
  exists (Allocation.row currentAllocation allocations (TargetAllocation.category a)).
  split; [| split].
  - rewrite rows_perm. apply list_elem_of_fmap_2, of_list_elem, elem_of_app.
    right. apply list_elem_of_fmap_2, Hin.
  - reflexivity.
  - cbn. unfold Allocation.target_of. rewrite (find_unique _ _ Hnd Hin).
    apply or_zero_Some.
Qed.

Lemma X5_every_target_is_shown_witness :
  exists r,
    r ∈ Allocation.combinedAllocationData
          (Allocation.currentAllocation Scenario.livePrices (Scenario.stocks 250))
          Scenario.allocations
    /\ CombinedAllocation.category r = "米国株"
    /\ CombinedAllocation.targetPercentage r == 50.
Proof.
  apply (X5_every_target_is_shown
           (Allocation.currentAllocation Scenario.livePrices (Scenario.stocks 250))
           Scenario.allocations (TargetAllocation.mk "米国株" 50)).
  - apply NoDup_singleton.
  - left.
Defined.

(** [sort] is stable: the elements of one key keep their order. *)
Section SortStable.
Context {A : Type} (cmp : A -> A -> Q) (key : A -> Q).
Hypothesis Hcmp : forall a b, cmp a b == key b - key a.

Lemma insert_stable k x l :
  List.filter (has_key key k) (Js.insert cmp x l) = List.filter (has_key key k) (x :: l).
Proof.
  induction l as [| y l IH]; [reflexivity |].
  cbn [Js.insert]. destruct (Qle_bool (cmp x y) 0) eqn:E; [reflexivity |].
  assert (Hlt : key x < key y).
  { destruct (Qlt_le_dec (key x) (key y)) as [? | Hle]; [assumption |].
    assert (Hc : cmp x y <= 0) by (rewrite Hcmp; lra).
    apply Qle_bool_iff in Hc. congruence. }
  cbn [List.filter] in *. rewrite IH.
  destruct (has_key key k x) eqn:Ex; [| reflexivity].
  destruct (has_key key k y) eqn:Ey; [| reflexivity].
  unfold has_key in *. apply Qeq_bool_iff in Ex, Ey. lra.
Qed.

Lemma sort_stable k l :
  List.filter (has_key key k) (Js.sort cmp l) = List.filter (has_key key k) l.
Proof.
  induction l as [| x l IH]; [reflexivity |].
  cbn [Js.sort fold_right]. fold (Js.sort cmp l). rewrite insert_stable.
  cbn [List.filter]. rewrite IH. reflexivity.
Qed.
End SortStable.

(** X6: rows that show the same current percentage keep the order in which
    their categories were first seen (holdings first, then targets). *)
Theorem X6_ties_keep_first_seen_order (currentAllocation : Js.Map.t Q)
    (allocations : list TargetAllocation.t) (k : Q) :
  List.filter (has_key CombinedAllocation.currentPercentage k)
    (Allocation.combinedAllocationData currentAllocation allocations)
  = List.filter (has_key CombinedAllocation.currentPercentage k)
      (Allocation.row currentAllocation allocations <$>
         Js.Set_.of_list
           (Js.Map.keys currentAllocation
            ++ (TargetAllocation.category <$> allocations))%list).
Proof.
  unfold Allocation.combinedAllocationData. apply sort_stable.
  intros a b. reflexivity.
Qed.

Lemma filter_all {A} (f : A -> bool) (l : list A) :
  (forall x, x ∈ l -> f x = true) -> List.filter f l = l.
Proof.
  induction l as [| x l IH]; intros H; [reflexivity |].
  simpl. rewrite (H x) by left. rewrite IH; [reflexivity |].
  intros y Hy. apply H. right. exact Hy.
Qed.

(** X7: with no holdings (an empty current map, as for an empty stock list
    or a portfolio worth zero) the table has one row per target category,
    in the order of the target list, each with a current percentage of 0. *)
Theorem X7_no_holdings_rows (allocations : list TargetAllocation.t) :
  Allocation.combinedAllocationData [] allocations
  = (fun c => CombinedAllocation.mk c 0 (Allocation.target_of allocations c))
      <$> Js.Set_.of_list (TargetAllocation.category <$> allocations).
Proof.
  pose proof (sort_stable Allocation.by_current_desc
                CombinedAllocation.currentPercentage (fun a b => Qeq_refl _) 0
                (Allocation.row [] allocations <$>
                   Js.Set_.of_list (TargetAllocation.category <$> allocations))) as H.
  assert (Hall : forall l : list CombinedAllocation.t,
            (forall r, r ∈ l -> CombinedAllocation.currentPercentage r = 0) ->
            List.filter (has_key CombinedAllocation.currentPercentage 0) l = l).
  { intros l Hl. apply filter_all. intros r Hr. unfold has_key.
    rewrite (Hl r Hr). reflexivity. }
  rewrite !Hall in H.
  - exact H.
  - intros r Hr. apply list_elem_of_fmap in Hr as (c & -> & _). reflexivity.
  - intros r Hr. rewrite sort_perm in Hr.
    apply list_elem_of_fmap in Hr as (c & -> & _). reflexivity.
Qed.

(** ** The edit form, continued *)

Lemma selected_children_elem (ids : list Z) (st : StockListPage.State) (c : Z) :
  c ∈ StockListPage.editingSelectedChildStrategyIds
        (StockListPage.handleEditingParentStrategyChange ids st)
  <-> c ∈ StockListPage.editingSelectedChildStrategyIds st
      /\ StockListPage.parent_selected (StockListPage.allStrategies st) ids c = true.
Proof.
  cbn. rewrite list_elem_of_In, filter_In, <- list_elem_of_In. reflexivity.
Qed.

Lemma filter_twice {A} (f : A -> bool) (l : list A) :
  List.filter f (List.filter f l) = List.filter f l.
Proof.
  induction l as [| x l IH]; [reflexivity |].
  simpl. destruct (f x) eqn:E; simpl; [rewrite E, IH |]; auto.
Qed.

(** X10: changing the parent selection twice keeps a child only if its
    parent was in both selections, so a child that was pruned does not come
    back when its parent is selected again; repeating the same change
    changes nothing more. *)
Theorem X10_pruned_children_do_not_return (ids1 ids2 : list Z)
    (st : StockListPage.State) :
  let once := StockListPage.handleEditingParentStrategyChange ids1 st in
  let twice := StockListPage.handleEditingParentStrategyChange ids2 once in
  (forall c,
     c ∈ StockListPage.editingSelectedChildStrategyIds twice
     <-> c ∈ StockListPage.editingSelectedChildStrategyIds st
         /\ exists s p,
              StockListPage.find_strategy (StockListPage.allStrategies st) c = Some s
              /\ Strategy.parent_id s = Some p /\ p ∈ ids1 /\ p ∈ ids2)
  /\ StockListPage.handleEditingParentStrategyChange ids1 once = once
  /\ StockListPage.editingSelectedChildStrategyIds
       (StockListPage.handleEditingParentStrategyChange ids2
          (StockListPage.handleEditingParentStrategyChange [] st)) = [].
Proof.
  intros once twice. split; [| split].
  - intros c. unfold twice. rewrite selected_children_elem.
    unfold once at 1. rewrite selected_children_elem.
    change (StockListPage.allStrategies once) with (StockListPage.allStrategies st).
    rewrite !parent_selected_true. split.
    + intros [[Hc (s & p & Hs & Hp & H1)] (s' & p' & Hs' & Hp' & H2)].
      split; [exact Hc |]. exists s, p.
      assert (s' = s) by congruence. subst s'.
      assert (p' = p) by congruence. subst p'. auto.
    + intros [Hc (s & p & Hs & Hp & H1 & H2)]. repeat split; eauto 6.
  - unfold once, StockListPage.handleEditingParentStrategyChange. cbn.
    rewrite filter_twice. reflexivity.
  - cbn. set (l := StockListPage.editingSelectedChildStrategyIds st).
    assert (H : List.filter
                  (StockListPage.parent_selected (StockListPage.allStrategies st) []) l
                = []).
    { induction l as [| c l IH]; [reflexivity |]. simpl.
      unfold StockListPage.parent_selected at 1.
      destruct (StockListPage.find_strategy _ c) as [s |]; [| exact IH].
      destruct (Strategy.parent_id s); exact IH. }
    rewrite H. reflexivity.
Qed.

Lemma no_orphan_of_invariant (st : StockListPage.State) :
  children_have_parents st ->
  StockListPage.first_orphan (StockListPage.allStrategies st)
    (StockListPage.editingSelectedParentStrategyIds st)
    (StockListPage.editingSelectedChildStrategyIds st) = None.
Proof.
  intros Hinv.
  destruct (StockListPage.first_orphan _ _ _) as [c |] eqn:E; [| reflexivity].
  exfalso.
  destruct (proj1 (first_orphan_Some _ _ _) (ex_intro _ c E)) as (c' & Hin & Hm).
  apply parent_missing_true in Hm as (s & p & Hs & Hp & Hn).
  destruct (Hinv c' Hin) as (s' & p' & Hs' & Hp' & Hin').
  assert (s' = s) by congruence. subst s'.
  assert (p' = p) by congruence. subst p'. contradiction.
Qed.

Lemma submit_sends (put_ok : Z -> StockListPage.UpdateBody -> bool)
    (st : StockListPage.State) (stockId : Z) :
  StockListPage.editingStockId st = Some stockId -> stockId <> 0%Z ->
  children_have_parents st ->
  exists st' rest,
    StockListPage.handleUpdateSubmit put_ok st
    = (st', StockListPage.PutStock stockId
              (StockListPage.mkBody (StockListPage.editFormData st)
                 (StockListPage.allSelectedStrategyIds
                    (StockListPage.editingSelectedParentStrategyIds st)
                    (StockListPage.editingSelectedChildStrategyIds st)))
            :: rest).
Proof.
  intros Hid Hnz Hinv. unfold StockListPage.handleUpdateSubmit. rewrite Hid.
  destruct (Z.eqb_spec stockId 0) as [? | _]; [contradiction |].
  rewrite (no_orphan_of_invariant st Hinv).
  destruct (put_ok stockId _); eauto.
Qed.

Lemma parent_change_invariant (ids : list Z) (st : StockListPage.State) :
  children_have_parents (StockListPage.handleEditingParentStrategyChange ids st).
Proof.
  intros c Hc. apply selected_children_elem in Hc as [_ Hc].
  apply parent_selected_true in Hc. exact Hc.
Qed.

(** X11: a save right after a change of the parent selection is never
    stopped by the validation: the request is sent, with the new parents
    and the children that were kept. *)
Theorem X11_save_after_parent_change_is_sent
    (put_ok : Z -> StockListPage.UpdateBody -> bool) (ids : list Z)
    (st : StockListPage.State) (stockId : Z) :
  StockListPage.editingStockId st = Some stockId -> stockId <> 0%Z ->
  let st1 := StockListPage.handleEditingParentStrategyChange ids st in
  exists st' rest,
    StockListPage.handleUpdateSubmit put_ok st1
    = (st', StockListPage.PutStock stockId
              (StockListPage.mkBody (StockListPage.editFormData st)
                 (StockListPage.allSelectedStrategyIds ids
                    (StockListPage.editingSelectedChildStrategyIds st1)))
            :: rest).
Proof.
  intros Hid Hnz st1.
  apply (submit_sends put_ok st1 stockId Hid Hnz), parent_change_invariant.
Qed.

Lemma X11_save_after_parent_change_is_sent_witness :
  exists st' rest,
    StockListPage.handleUpdateSubmit (fun _ _ => true)
      (StockListPage.handleEditingParentStrategyChange [] (Scenario.editing [1%Z] [2%Z]))
    = (st', StockListPage.PutStock 7
              (StockListPage.mkBody (Some Scenario.aapl) []) :: rest).
Proof.
  apply (X11_save_after_parent_change_is_sent (fun _ _ => true) []
           (Scenario.editing [1%Z] [2%Z]) 7%Z); [reflexivity | discriminate].
Defined.

Lemma find_strategy_unique (all : list Strategy.t) (s : Strategy.t) :
  NoDup (Strategy.id <$> all) -> s ∈ all ->
  StockListPage.find_strategy all (Strategy.id s) = Some s.
Proof.
  unfold StockListPage.find_strategy, Js.find.
  induction all as [| t all IH]; intros Hnd Hin.
  - apply elem_of_nil in Hin. contradiction.
  - rewrite fmap_cons in Hnd. apply NoDup_cons in Hnd as [Ht Hnd]. simpl.
    apply elem_of_cons in Hin as [-> | Hin].
    + rewrite Z.eqb_refl. reflexivity.
    + destruct (Z.eqb_spec (Strategy.id t) (Strategy.id s)) as [E | _];
        [| apply IH; assumption].
      exfalso. apply Ht. rewrite E. apply list_elem_of_fmap_2, Hin.
Qed.

(** X12: when strategy ids are distinct, a child selection made from the
    options that the child list offers (the children of the selected
    parents) always passes the validation, and the request is sent. *)
Theorem X12_offered_children_pass_validation
    (put_ok : Z -> StockListPage.UpdateBody -> bool)
    (st : StockListPage.State) (stockId : Z) :
  StockListPage.editingStockId st = Some stockId -> stockId <> 0%Z ->
  NoDup (Strategy.id <$> StockListPage.allStrategies st) ->
  (forall c, c ∈ StockListPage.editingSelectedChildStrategyIds st ->
             c ∈ (Strategy.id <$> StockListPage.childOptions st)) ->
  exists st' rest,
    StockListPage.handleUpdateSubmit put_ok st
    = (st', StockListPage.PutStock stockId
              (StockListPage.mkBody (StockListPage.editFormData st)
                 (StockListPage.allSelectedStrategyIds
                    (StockListPage.editingSelectedParentStrategyIds st)
                    (StockListPage.editingSelectedChildStrategyIds st)))
            :: rest).
Proof.
  intros Hid Hnz Hnd Hoffered. apply (submit_sends put_ok st stockId Hid Hnz).
  intros c Hc. apply Hoffered, list_elem_of_fmap in Hc as (s & -> & Hs).
  unfold StockListPage.childOptions in Hs.
  apply list_elem_of_In, filter_In in Hs as [Hs Hp]. apply list_elem_of_In in Hs.
  destruct (Strategy.parent_id s) as [p |] eqn:Ep; [| discriminate].
  exists s, p. split; [apply find_strategy_unique; assumption |].
  split; [exact Ep | apply includes_elem, Hp].
Qed.

Lemma X12_offered_children_pass_validation_witness :
  exists st' rest,
    StockListPage.handleUpdateSubmit (fun _ _ => true) (Scenario.editing [1%Z] [2%Z])
    = (st', StockListPage.PutStock 7
              (StockListPage.mkBody (Some Scenario.aapl) [1%Z; 2%Z]) :: rest).
Proof.
  apply (X12_offered_children_pass_validation (fun _ _ => true)
           (Scenario.editing [1%Z] [2%Z]) 7%Z).
  - reflexivity.
  - discriminate.
  - apply NoDup_ListNoDup. repeat constructor; simpl; intuition discriminate.
  - intros c Hc. apply list_elem_of_In in Hc. destruct Hc as [<- | []]. left.
Defined.

Lemma split_by_level (l : list Strategy.t) (x : Z) :
  x ∈ (Strategy.id <$> List.filter StockListPage.is_top_level l)
  \/ x ∈ (Strategy.id <$>
            List.filter (fun s => negb (StockListPage.is_top_level s)) l)
  <-> x ∈ (Strategy.id <$> l).
Proof.
  rewrite !list_elem_of_fmap. split.
  - intros [(s & -> & Hs) | (s & -> & Hs)]; exists s; split; try reflexivity;
      apply list_elem_of_In, filter_In in Hs as [Hs _]; apply list_elem_of_In, Hs.
  - intros (s & -> & Hs). apply list_elem_of_In in Hs.
    destruct (StockListPage.is_top_level s) eqn:E; [left | right]; exists s;
      (split; [reflexivity |]); apply list_elem_of_In, filter_In;
      (split; [exact Hs |]); rewrite E; reflexivity.
Qed.

(** X13: opening the edit row of a stock and saving at once keeps the
    stock's strategies: the request, if one is sent, is for the stock's id
    and its strategy ids are the ids of the stock's own strategies, each
    once. *)
Theorem X13_edit_then_save_round_trip
    (put_ok : Z -> StockListPage.UpdateBody -> bool) (stock : Stock.t)
    (st : StockListPage.State) (stockId : Z) (body : StockListPage.UpdateBody) :
  StockListPage.PutStock stockId body
    ∈ snd (StockListPage.handleUpdateSubmit put_ok
             (StockListPage.handleEditClick stock st)) ->
  stockId = Stock.id stock
  /\ NoDup (StockListPage.strategy_ids body)
  /\ forall x, x ∈ StockListPage.strategy_ids body
               <-> x ∈ (Strategy.id <$> Stock.strategies stock).
Proof.
  unfold StockListPage.handleUpdateSubmit. cbn [StockListPage.handleEditClick
    StockListPage.editingStockId StockListPage.allStrategies
    StockListPage.editingSelectedParentStrategyIds
    StockListPage.editingSelectedChildStrategyIds StockListPage.editFormData].
  intros Hput.
  assert (Hbody : StockListPage.PutStock stockId body
                  = StockListPage.PutStock (Stock.id stock)
                      (StockListPage.mkBody (Some stock)
                         (StockListPage.allSelectedStrategyIds
                            (Strategy.id <$>
                               List.filter StockListPage.is_top_level
                                 (Stock.strategies stock))
                            (Strategy.id <$>
                               List.filter
                                 (fun s => negb (StockListPage.is_top_level s))
                                 (Stock.strategies stock))))).
  { destruct (Stock.id stock =? 0)%Z.
    - apply elem_of_nil in Hput. contradiction.
    - destruct (StockListPage.first_orphan _ _ _).
      + apply list_elem_of_singleton in Hput. discriminate.
      + destruct (put_ok _ _); cbn [snd] in Hput;
          repeat (apply elem_of_cons in Hput as [Hput | Hput];
                  [try discriminate; exact Hput |]);
          apply elem_of_nil in Hput; contradiction. }
  inversion Hbody; subst. cbn. unfold StockListPage.allSelectedStrategyIds.
  split; [reflexivity | split].
  - apply of_list_NoDup.
  - intros x. rewrite of_list_elem, elem_of_app. apply split_by_level.
Qed.

Lemma X13_edit_then_save_round_trip_witness :
  7%Z = Stock.id Scenario.aapl_before_reparenting
  /\ NoDup [2%Z]
  /\ forall x, x ∈ [2%Z]
               <-> x ∈ (Strategy.id <$> Stock.strategies Scenario.aapl_before_reparenting).
Proof.
  apply (X13_edit_then_save_round_trip (fun _ _ => true)
           Scenario.aapl_before_reparenting Scenario.loaded 7%Z
           (StockListPage.mkBody (Some Scenario.aapl_before_reparenting) [2%Z])).
  left.
Defined.

(** X14: a stock whose stored strategies agree with the loaded ones and
    obey the direct-ancestor rule can be opened and saved unchanged: the
    validation lets it through. *)
Theorem X14_consistent_stock_can_be_saved
    (put_ok : Z -> StockListPage.UpdateBody -> bool) (stock : Stock.t)
    (st : StockListPage.State) :
  Stock.id stock <> 0%Z ->
  consistent_associations (StockListPage.allStrategies st) stock ->
  exists st' body rest,
    StockListPage.handleUpdateSubmit put_ok (StockListPage.handleEditClick stock st)
    = (st', StockListPage.PutStock (Stock.id stock) body :: rest).
Proof.
  intros Hnz [Hfind Hrule].
  destruct (submit_sends put_ok (StockListPage.handleEditClick stock st)
              (Stock.id stock) eq_refl Hnz) as (st' & rest & H).
  - intros c Hc. cbn in Hc. apply list_elem_of_fmap in Hc as (s & -> & Hs).
    apply list_elem_of_In, filter_In in Hs as [Hs Hlevel]. apply list_elem_of_In in Hs.
    unfold StockListPage.is_top_level in Hlevel.
    destruct (Strategy.parent_id s) as [p |] eqn:Ep; [| discriminate].
    exists s, p. split; [apply Hfind, Hs | split; [exact Ep |]].
    destruct (Hrule s p Hs Ep) as (s' & Hs' & <- & Hp'). cbn.
    apply list_elem_of_fmap_2, list_elem_of_In, filter_In.
    split; [apply list_elem_of_In, Hs' |].
    unfold StockListPage.is_top_level. rewrite Hp'. reflexivity.
  - eauto.
Qed.

Lemma X14_consistent_stock_can_be_saved_witness :
  exists st' body rest,
    StockListPage.handleUpdateSubmit (fun _ _ => true)
      (StockListPage.handleEditClick
         (Stock.mk 7 "AAPL" "Apple" 5 250 "米国株" Scenario.tree) Scenario.loaded)
    = (st', StockListPage.PutStock 7 body :: rest).
Proof.
  apply (X14_consistent_stock_can_be_saved (fun _ _ => true)
           (Stock.mk 7 "AAPL" "Apple" 5 250 "米国株" Scenario.tree) Scenario.loaded).
  - discriminate.
  - split.
    + intros s Hs. apply list_elem_of_In in Hs.
      destruct Hs as [<- | [<- | []]]; reflexivity.
    + intros s p Hs Hp. apply list_elem_of_In in Hs.
      destruct Hs as [<- | [<- | []]]; [discriminate |].
      inversion Hp; subst p. exists Scenario.growth.
      split; [left | split; reflexivity].
Defined.

(** ** Profit and loss *)

Lemma eqb_zero (x : float) :
  PrimFloat.eqb x 0 = true <-> exists s, Prim2SF x = S754_zero s.
Proof.
  rewrite FloatAxioms.eqb_spec. change (Prim2SF 0) with (S754_zero false).
  destruct (Prim2SF x) as [s | s | | s m e]; cbn; split;
    try discriminate; try (intros [s' H]; discriminate).
  - intros _. exists s. reflexivity.
  - reflexivity.
  - destruct s; discriminate.
  - destruct s; discriminate.
Qed.

Lemma same_float_refl (x : float) : same_float x x.
Proof. left. reflexivity. Qed.

Lemma same_float_trans (x y z : float) :
  same_float x y -> same_float y z -> same_float x z.
Proof.
  intros [-> | [Hx Hy]] [-> | [Hy' Hz]].
  - left. reflexivity.
  - right. split; assumption.
  - right. split; assumption.
  - right. split; assumption.
Qed.

Lemma add_zero_same (x : float) : same_float (PrimFloat.add x 0) x.
Proof.
  destruct (Prim2SF x) as [s | s | | s m e] eqn:E.
  - right. split; apply eqb_zero.
    + rewrite add_spec, E. change (Prim2SF 0) with (S754_zero false).
      destruct s; eexists; reflexivity.
    + exists s. exact E.
  - left. apply Prim2SF_inj. rewrite add_spec, E. reflexivity.
  - left. apply Prim2SF_inj. rewrite add_spec, E. reflexivity.
  - left. apply Prim2SF_inj. rewrite add_spec, E. reflexivity.
Qed.

Lemma same_float_add (x y v : float) :
  same_float x y -> same_float (PrimFloat.add x v) (PrimFloat.add y v).
Proof.
  intros [-> | [Hx Hy]]; [apply same_float_refl |].
  apply eqb_zero in Hx as [sx Hx]. apply eqb_zero in Hy as [sy Hy].
  destruct (Prim2SF v) as [s | s | | s m e] eqn:E.
  - right. split; apply eqb_zero; rewrite add_spec, E.
    + rewrite Hx. destruct sx, s; eexists; reflexivity.
    + rewrite Hy. destruct sy, s; eexists; reflexivity.
  - left. apply Prim2SF_inj. rewrite !add_spec, Hx, Hy, E. reflexivity.
  - left. apply Prim2SF_inj. rewrite !add_spec, Hx, Hy, E. reflexivity.
  - left. apply Prim2SF_inj. rewrite !add_spec, Hx, Hy, E. reflexivity.
Qed.

Lemma totalProfitLoss_priced (livePrices : gmap Z float)
    (l : list Binary64.Stock.t) (a b : float) :
  same_float a b ->
  same_float
    (fold_left
       (fun sum stock =>
          PrimFloat.add sum (Binary64.or_zero (Binary64.profitLoss livePrices stock)))
       l a)
    (fold_left
       (fun sum stock =>
          PrimFloat.add sum (Binary64.or_zero (Binary64.profitLoss livePrices stock)))
       (filter (priced livePrices) l) b).
Proof.
  revert a b. induction l as [| s l IH]; intros a b Hab; [exact Hab |].
  cbn [fold_left]. destruct (decide (priced livePrices s)) as [Hs | Hs].
  - rewrite filter_cons_True by exact Hs. cbn [fold_left].
    apply IH, same_float_add, Hab.
  - rewrite filter_cons_False by exact Hs. apply IH.
    apply same_float_trans with a; [| exact Hab].
    unfold priced in Hs. unfold Binary64.profitLoss, Binary64.marketValue.
    destruct (livePrices !! Binary64.Stock.id s) as [p |].
    + exfalso. apply Hs. eexists. reflexivity.
    + apply add_zero_same.
Qed.

Lemma or_zero_profitLoss (livePrices : gmap Z float) (s : Binary64.Stock.t) :
  Binary64.or_zero (Binary64.profitLoss livePrices s) = gain64 livePrices s.
Proof.
  unfold Binary64.profitLoss, Binary64.marketValue, gain64.
  destruct (livePrices !! Binary64.Stock.id s) as [p |]; [| reflexivity].
  apply or_zero_present.
Qed.

Lemma totalProfitLoss_gains (livePrices : gmap Z float)
    (l : list Binary64.Stock.t) (a : float) :
  fold_left
    (fun sum stock =>
       PrimFloat.add sum (Binary64.or_zero (Binary64.profitLoss livePrices stock)))
    l a
  = fold_left PrimFloat.add (gain64 livePrices <$> l) a.
Proof.
  revert a. induction l as [| s l IH]; intros a; [reflexivity |].
  rewrite fmap_cons. cbn [fold_left]. rewrite or_zero_profitLoss. apply IH.
Qed.

(** X15: on binary64 numbers, as the code computes.  The total profit and
    loss is what the listed stocks add, added up in list order from 0: a
    stock with a live price adds [live price * quantity - acquisition price
    * quantity] unless that is zero or NaN, every other stock adds 0.
    Without any live price the total is 0, and the stocks that have no live
    price make no difference: the total over the listed stocks is the same
    number as the total over those of them that have a live price. *)
Theorem X15_total_profit_loss (livePrices : gmap Z float)
    (stocks : list Binary64.Stock.t) :
  Binary64.totalProfitLoss livePrices stocks = float_sum (gain64 livePrices <$> stocks)
  /\ Binary64.totalProfitLoss ∅ stocks = 0%float
  /\ same_float (Binary64.totalProfitLoss livePrices stocks)
       (Binary64.totalProfitLoss livePrices (filter (priced livePrices) stocks)).
Proof.
  split; [apply totalProfitLoss_gains | split].
  - unfold Binary64.totalProfitLoss.
    induction stocks as [| s stocks IH]; [reflexivity |].
    cbn [fold_left].
    assert (Hs : Binary64.profitLoss ∅ s = None).
    { unfold Binary64.profitLoss, Binary64.marketValue. rewrite lookup_empty.
      reflexivity. }
    rewrite Hs. exact IH.
  - apply totalProfitLoss_priced, same_float_refl.
Qed.

(** ** The categories on offer *)

Lemma fold_add_map_elem {A B} `{EqDecision B} (f : A -> B) (l : list A)
    (acc : list B) (y : B) :
  y ∈ fold_left (fun cs a => Js.Set_.add cs (f a)) l acc <-> y ∈ acc \/ y ∈ (f <$> l).
Proof.
  revert acc. induction l as [| x l IH]; intros acc.
  - simpl. rewrite elem_of_nil. tauto.
  - rewrite fmap_cons. cbn [fold_left]. rewrite IH, add_elem, elem_of_cons. tauto.
Qed.

Lemma fold_add_map_NoDup {A B} `{EqDecision B} (f : A -> B) (l : list A)
    (acc : list B) :
  NoDup acc -> NoDup (fold_left (fun cs a => Js.Set_.add cs (f a)) l acc).
Proof.
  revert acc. induction l as [| x l IH]; intros acc Hnd; [exact Hnd |].
  cbn [fold_left]. apply IH, add_NoDup, Hnd.
Qed.

(** X16: the categories on offer are the default ones, the categories of
    the stocks and the categories of the targets, nothing else, each once
    (whatever the order of strings is). *)
Theorem X16_available_categories (lt : string -> string -> bool)
    (stocks : list Stock.t) (allocations : list TargetAllocation.t) :
  NoDup (App.availableCategories lt stocks allocations)
  /\ forall c, c ∈ App.availableCategories lt stocks allocations
               <-> c ∈ App.DEFAULT_CATEGORIES
                   \/ c ∈ (Stock.category <$> stocks)
                   \/ c ∈ (TargetAllocation.category <$> allocations).
Proof.
  unfold App.availableCategories. split.
  - rewrite sort_perm. apply fold_add_map_NoDup, fold_add_map_NoDup, of_list_NoDup.
  - intros c. rewrite sort_perm, !fold_add_map_elem, of_list_elem. tauto.
Qed.

Section SortOrder.
Context {A : Type} (lt : A -> A -> bool) (cmp : A -> A -> Q).
Hypothesis Hcmp : forall a b, cmp a b = if lt a b then - (1) else if lt b a then 1 else 0.
Hypothesis Horder : strict_weak_order lt.

Lemma cmp_not_after x y : Qle_bool (cmp x y) 0 = true <-> not_after lt x y.
Proof.
  destruct Horder as [Hasym _]. unfold not_after. rewrite Hcmp.
  destruct (lt x y) eqn:Exy.
  - rewrite (Hasym _ _ Exy). split; reflexivity.
  - destruct (lt y x); split; intros H; try reflexivity; discriminate.
Qed.

Lemma insert_ordered x l :
  StronglySorted (not_after lt) l -> StronglySorted (not_after lt) (Js.insert cmp x l).
Proof.
  destruct Horder as [Hasym Htrans].
  induction 1 as [| y l Hs IH Hall]; simpl.
  - constructor; constructor.
  - destruct (Qle_bool (cmp x y) 0) eqn:E.
    + apply cmp_not_after in E.
      constructor; [constructor; assumption |].
      constructor; [exact E |].
      eapply Forall_impl; [exact Hall |]. intros z Hz. unfold not_after in *.
      apply (Htrans _ y); assumption.
    + assert (Hyx : lt y x = true).
      { destruct (lt y x) eqn:Eyx; [reflexivity |].
        assert (Hc : Qle_bool (cmp x y) 0 = true) by (apply cmp_not_after; exact Eyx).
        congruence. }
      constructor; [exact IH |]. rewrite (insert_perm cmp x l).
      constructor; [exact (Hasym _ _ Hyx) | exact Hall].
Qed.

Lemma sort_ordered l : StronglySorted (not_after lt) (Js.sort cmp l).
Proof.
  induction l as [| x l IH]; simpl; [constructor |]. apply insert_ordered, IH.
Qed.
End SortOrder.

(** X17: the categories on offer are sorted: in the order of strings that
    [sort()] uses (any strict order in which incomparable strings count as
    equal), no category comes after a later one. *)
Theorem X17_available_categories_sorted (lt : string -> string -> bool)
    (stocks : list Stock.t) (allocations : list TargetAllocation.t) :
  strict_weak_order lt ->
  StronglySorted (not_after lt) (App.availableCategories lt stocks allocations).
Proof.
  intros Horder. unfold App.availableCategories.
  apply (sort_ordered lt (Js.default_compare lt)); [| exact Horder].
  intros a b. reflexivity.
Qed.

Lemma X17_available_categories_sorted_witness :
  StronglySorted (not_after (fun a b => (String.length a <? String.length b)%nat))
    (App.availableCategories (fun a b => (String.length a <? String.length b)%nat)
       (Scenario.stocks 250) Scenario.allocations).
Proof.
  apply (X17_available_categories_sorted
           (fun a b => (String.length a <? String.length b)%nat)).
  split.
  - intros a b H. apply Nat.ltb_lt in H. apply Nat.ltb_ge. lia.
  - intros a b c H1 H2. apply Nat.ltb_ge in H1, H2. apply Nat.ltb_ge. lia.
Defined.

(** ** Fetching the stocks, continued *)

Lemma needs_name (s : Stock.t) :
  Js.str_falsy (Stock.name s) || String.eqb (Stock.name s) App.unknown_name = false
  <-> named s.
Proof.
  unfold named, Js.str_falsy. rewrite orb_false_iff, !String.eqb_neq. reflexivity.
Qed.

Lemma process_result (backend : App.Backend) (s : Stock.t) :
  let named_s := fst (App.fix_name backend s) in
  let fixed := App.fix_category (Stock.ticker s) named_s in
  App.process backend s
  = (fst fixed,
     (snd (App.fix_name backend s)
      ++ (if snd fixed then [App.PutStock (Stock.id (fst fixed)) (fst fixed)] else []))%list).
Proof.
  unfold App.process, App.bind.
  destruct (App.fix_name backend s) as [acc reqs]. cbn [fst snd].
  destruct (App.fix_category (Stock.ticker s) acc) as [s2 needs]. cbn [fst snd].
  destruct needs; reflexivity.
Qed.

Lemma fix_name_result (backend : App.Backend) (s : Stock.t) :
  (named s /\ App.fix_name backend s = ((s, false), []))
  \/ (~ named s
      /\ App.fix_name backend s
         = (match App.get_name backend (Stock.ticker s) with
            | Some name => (App.with_name name s, true)
            | None => (App.with_name App.unknown_name s, false)
            end, [App.GetName (Stock.ticker s)])).
Proof.
  unfold App.fix_name.
  destruct (Js.str_falsy (Stock.name s) || String.eqb (Stock.name s) App.unknown_name)
    eqn:E.
  - right. split.
    + intros H. apply needs_name in H. congruence.
    + cbn. destruct (App.get_name backend (Stock.ticker s)); reflexivity.
  - left. split; [apply needs_name, E | reflexivity].
Qed.

Lemma fix_category_same (ticker : string) (acc : Stock.t * bool) :
  same_holding (fst acc) (fst (App.fix_category ticker acc))
  /\ Stock.name (fst (App.fix_category ticker acc)) = Stock.name (fst acc).
Proof.
  destruct acc as [s1 needs]. unfold App.fix_category.
  destruct (Js.str_falsy (Stock.category s1)
            || String.eqb (Stock.category s1) App.uncategorized);
    cbn; repeat split.
Qed.

Lemma process_same_holding (backend : App.Backend) (s : Stock.t) :
  same_holding s (fst (App.process backend s)).
Proof.
  rewrite process_result. cbn [fst].
  destruct (fix_category_same (Stock.ticker s) (fst (App.fix_name backend s)))
    as [(H1 & H2 & H3 & H4 & H5) _].
  assert (Hn : same_holding s (fst (fst (App.fix_name backend s)))).
  { destruct (fix_name_result backend s) as [[_ ->] | [_ ->]]; cbn.
    - repeat split.
    - destruct (App.get_name backend (Stock.ticker s)); repeat split. }
  destruct Hn as (G1 & G2 & G3 & G4 & G5).
  repeat split; congruence.
Qed.

(** X18: fetching never changes the holding itself: each stock of the new
    list has the id, ticker, quantity, acquisition price and strategies of
    the fetched stock at the same place. *)
Theorem X18_fetch_keeps_holdings (backend : App.Backend)
    (stocks fetchedStocks : list Stock.t) :
  App.get_stocks backend = Some fetchedStocks ->
  Forall2 same_holding fetchedStocks (fst (App.fetchStocks backend stocks)).
Proof.
  intros Hget. unfold App.fetchStocks. rewrite Hget. cbn [fst].
  apply Forall2_fmap_r, Forall2_fmap_r, Forall_Forall2_diag, Forall_forall.
  intros s _. apply process_same_holding.
Qed.

Lemma X18_fetch_keeps_holdings_witness :
  Forall2 same_holding
    [Stock.mk 3 "7203" "" 100 2000 "未分類" []]
    [Stock.mk 3 "7203" "Toyota" 100 2000 "日本株" []].
Proof.
  exact (X18_fetch_keeps_holdings
           (App.mkBackend (Some [Stock.mk 3 "7203" "" 100 2000 "未分類" []])
              (fun _ => Some "Toyota") (fun _ _ => true))
           [] [Stock.mk 3 "7203" "" 100 2000 "未分類" []] eq_refl).
Defined.

Lemma process_settled (backend : App.Backend) (s : Stock.t) :
  settled s -> App.process backend s = (s, []).
Proof.
  intros [Hn [Hc1 Hc2]]. rewrite process_result.
  destruct (fix_name_result backend s) as [[_ ->] | [Hnn _]]; [| contradiction].
  cbn [fst snd]. unfold App.fix_category.
  assert (E : Js.str_falsy (Stock.category s)
              || String.eqb (Stock.category s) App.uncategorized = false).
  { unfold Js.str_falsy. apply orb_false_iff. rewrite !String.eqb_neq. auto. }
  rewrite E. reflexivity.
Qed.

(** X19: when every fetched stock has a name and a category, the list is
    taken as it is and nothing is asked of or written to the server beyond
    the fetch itself. *)
Theorem X19_settled_stocks_cause_no_request (backend : App.Backend)
    (stocks fetchedStocks : list Stock.t) :
  App.get_stocks backend = Some fetchedStocks ->
  Forall settled fetchedStocks ->
  App.fetchStocks backend stocks = (fetchedStocks, [App.GetStocks]).
Proof.
  intros Hget Hall. unfold App.fetchStocks. rewrite Hget.
  assert (H : App.process backend <$> fetchedStocks
              = (fun s => (s, [])) <$> fetchedStocks).
  { clear Hget. induction Hall as [| s l Hs _ IH]; [reflexivity |].
    rewrite !fmap_cons, IH, (process_settled backend s Hs). reflexivity. }
  rewrite H. f_equal.
  - clear. induction fetchedStocks as [| s l IH]; [reflexivity |].
    rewrite !fmap_cons, IH. reflexivity.
  - f_equal. clear. induction fetchedStocks as [| s l IH]; [reflexivity |].
    rewrite !fmap_cons. cbn [concat snd]. rewrite IH. reflexivity.
Qed.

Lemma X19_settled_stocks_cause_no_request_witness :
  App.fetchStocks
    (App.mkBackend (Some [Scenario.aapl]) (fun _ => None) (fun _ _ => false)) []
  = ([Scenario.aapl], [App.GetStocks]).
Proof.
  apply (X19_settled_stocks_cause_no_request
           (App.mkBackend (Some [Scenario.aapl]) (fun _ => None) (fun _ _ => false))
           [] [Scenario.aapl] eq_refl).
  constructor; [| constructor].
  repeat split; intros H; vm_compute in H; discriminate.
Defined.

Lemma process_puts (backend : App.Backend) (s : Stock.t) (r : App.Request) :
  r ∈ snd (App.process backend s) ->
  r = App.GetName (Stock.ticker s)
  \/ r = App.PutStock (Stock.id (fst (App.process backend s)))
         (fst (App.process backend s)).
Proof.
  rewrite process_result. cbn [fst snd]. intros Hr.
  apply elem_of_app in Hr as [Hr | Hr].
  - left. destruct (fix_name_result backend s) as [[_ E] | [_ E]];
      rewrite E in Hr; cbn [snd] in Hr.
    + apply elem_of_nil in Hr. contradiction.
    + apply list_elem_of_singleton in Hr. exact Hr.
  - right. destruct (snd (App.fix_category _ _)).
    + apply list_elem_of_singleton in Hr. exact Hr.
    + apply elem_of_nil in Hr. contradiction.
Qed.

(** X20: whatever is written back to the server is what the list shows:
    every PUT request of a fetch carries a stock of the new list, under that
    stock's own id. *)
Theorem X20_written_back_is_shown (backend : App.Backend) (stocks : list Stock.t)
    (id : Z) (body : Stock.t) :
  App.PutStock id body ∈ snd (App.fetchStocks backend stocks) ->
  body ∈ fst (App.fetchStocks backend stocks) /\ id = Stock.id body.
Proof.
  unfold App.fetchStocks. destruct (App.get_stocks backend) as [fetched |].
  - cbn [fst snd]. intros Hr. apply elem_of_cons in Hr as [Hr | Hr]; [discriminate |].
    apply list_elem_of_In, in_concat in Hr as (reqs & Hreqs & Hr).
    apply list_elem_of_In, list_elem_of_fmap in Hreqs as (res & -> & Hres).
    apply list_elem_of_fmap in Hres as (s & -> & Hs).
    apply list_elem_of_In, process_puts in Hr as [Hr | Hr]; [discriminate |].
    inversion Hr; subst. split; [| reflexivity].
    apply list_elem_of_fmap_2, list_elem_of_fmap_2, Hs.
  - cbn [snd]. intros Hr. apply list_elem_of_singleton in Hr. discriminate.
Qed.

Lemma X20_written_back_is_shown_witness :
  Stock.mk 3 "7203" "Toyota" 100 2000 "日本株" []
    ∈ [Stock.mk 3 "7203" "Toyota" 100 2000 "日本株" []]
  /\ 3%Z = Stock.id (Stock.mk 3 "7203" "Toyota" 100 2000 "日本株" []).
Proof.
  apply (X20_written_back_is_shown
           (App.mkBackend (Some [Stock.mk 3 "7203" "" 100 2000 "未分類" []])
              (fun _ => Some "Toyota") (fun _ _ => true)) []).
  right. right. left.
Defined.

Lemma process_name_fixed (backend : App.Backend) (s : Stock.t) :
  name_fixed backend s (fst (App.process backend s)).
Proof.
  rewrite process_result. cbn [fst]. unfold name_fixed.
  destruct (fix_category_same (Stock.ticker s) (fst (App.fix_name backend s)))
    as [_ ->].
  destruct (fix_name_result backend s) as [[Hn ->] | [Hn ->]]; cbn [fst].
  - split; [reflexivity | contradiction].
  - split; [contradiction |]. intros _.
    destruct (App.get_name backend (Stock.ticker s)); reflexivity.
Qed.

(** X21: a fetched stock that has a name keeps it; one whose name is empty
    or "不明な銘柄" is shown with the name the server gives for its ticker,
    and with "不明な銘柄" when that look-up fails. *)
Theorem X21_names_after_fetch (backend : App.Backend)
    (stocks fetchedStocks : list Stock.t) :
  App.get_stocks backend = Some fetchedStocks ->
  Forall2 (name_fixed backend) fetchedStocks (fst (App.fetchStocks backend stocks)).
Proof.
  intros Hget. unfold App.fetchStocks. rewrite Hget. cbn [fst].
  apply Forall2_fmap_r, Forall2_fmap_r, Forall_Forall2_diag, Forall_forall.
  intros s _. apply process_name_fixed.
Qed.

Lemma X21_names_after_fetch_witness :
  Forall2
    (name_fixed (App.mkBackend (Some [Stock.mk 3 "7203" "" 100 2000 "未分類" []])
                   (fun _ => None) (fun _ _ => true)))
    [Stock.mk 3 "7203" "" 100 2000 "未分類" []]
    [Stock.mk 3 "7203" "不明な銘柄" 100 2000 "日本株" []].
Proof.
  exact (X21_names_after_fetch
           (App.mkBackend (Some [Stock.mk 3 "7203" "" 100 2000 "未分類" []])
              (fun _ => None) (fun _ _ => true))
           [] [Stock.mk 3 "7203" "" 100 2000 "未分類" []] eq_refl).
Defined.

(** ** The strategy table *)

Section FlatMapOption.
Context {A B : Type} (f : A -> option (list B)).

Lemma flat_map_option_Some (l : list A) (rows : list B) :
  Js.flat_map_option f l = Some rows ->
  (forall x, x ∈ l -> exists ys, f x = Some ys)
  /\ (forall r, r ∈ rows <-> exists x ys, x ∈ l /\ f x = Some ys /\ r ∈ ys).
Proof.
  revert rows. induction l as [| x l IH]; intros rows H; simpl in H.
  - inversion H; subst. split.
    + intros x Hx. apply elem_of_nil in Hx. contradiction.
    + intros r. split; [intros Hr; apply elem_of_nil in Hr; contradiction |].
      intros (x & ys & Hx & _). apply elem_of_nil in Hx. contradiction.
  - destruct (f x) as [ys |] eqn:Ex; [| discriminate].
    destruct (Js.flat_map_option f l) as [zs |]; [| discriminate].
    inversion H; subst. destruct (IH zs eq_refl) as [IH1 IH2]. split.
    + intros y Hy. apply elem_of_cons in Hy as [-> | Hy]; eauto.
    + intros r. rewrite elem_of_app, IH2. split.
      * intros [Hr | (y & ys' & Hy & Hf & Hr)].
        -- exists x, ys. split; [left | auto].
        -- exists y, ys'. split; [right; exact Hy | auto].
      * intros (y & ys' & Hy & Hf & Hr). apply elem_of_cons in Hy as [-> | Hy].
        -- left. congruence.
        -- right. eauto.
Qed.

Lemma flat_map_option_None (l : list A) :
  Js.flat_map_option f l = None -> exists x, x ∈ l /\ f x = None.
Proof.
  induction l as [| x l IH]; simpl; [discriminate |].
  destruct (f x) as [ys |] eqn:Ex.
  - destruct (Js.flat_map_option f l) as [zs |]; [discriminate |].
    intros _. destruct (IH eq_refl) as (y & Hy & Hf). exists y. split; [right |]; auto.
  - intros _. exists x. split; [left | exact Ex].
Qed.
End FlatMapOption.

Lemma flat_map_option_ext {A B} (f g : A -> option (list B)) (l : list A) :
  (forall x, x ∈ l -> f x = g x) -> Js.flat_map_option f l = Js.flat_map_option g l.
Proof.
  induction l as [| x l IH]; intros H; [reflexivity |].
  simpl. rewrite (H x) by left. rewrite IH; [reflexivity |].
  intros y Hy. apply H. right. exact Hy.
Qed.

Lemma children_elem (l : list Strategy.t) (parent : option Z) (c : Strategy.t) :
  c ∈ List.filter (StrategyPage.has_parent parent) l
  <-> c ∈ l /\ Strategy.parent_id c = parent.
Proof.
  rewrite list_elem_of_In, filter_In, <- list_elem_of_In.
  unfold StrategyPage.has_parent.
  destruct (Strategy.parent_id c) as [p |], parent as [q |];
    try (split; [intros [_ H]; discriminate | intros [_ H]; discriminate]).
  - destruct (Z.eqb_spec p q) as [-> | Hne]; split; intros [H1 H2]; split; auto;
      congruence.
  - tauto.
Qed.

Section Table.
Context (editingStrategyId : option Z) (strategies l : list Strategy.t).

Lemma render_shown (fuel : nat) (parent : option Z) (i : nat)
    (rows : list StrategyPage.Row) :
  StrategyPage.renderStrategies fuel editingStrategyId strategies l parent i = Some rows ->
  forall s k, shown_at rows s k <-> exists d, under l parent s d /\ k = (i + d)%nat.
Proof.
  revert parent i rows. induction fuel as [| fuel IH]; intros parent i rows H;
    [discriminate |].
  cbn [StrategyPage.renderStrategies] in H.
  apply flat_map_option_Some in H as [Hall Hrows]. intros s k. split.
  - intros (r & Hr & <- & <-). apply Hrows in Hr as (c & ys & Hc & Hf & Hr).
    apply children_elem in Hc as [Hc Hp].
    destruct (StrategyPage.renderStrategies fuel _ _ _ _ _) as [below |] eqn:E;
      [| discriminate].
    inversion Hf; subst ys. apply elem_of_cons in Hr as [-> | Hr].
    + exists 0%nat. split; [apply under_here; assumption | cbn; lia].
    + destruct (proj1 (IH _ _ _ E (StrategyPage.strategy r) (StrategyPage.indent r)))
        as (d & Hd & Hk); [exists r; auto |].
      exists (S d). split; [eapply under_below; eassumption | lia].
  - intros (d & Hd & ->). inversion Hd as [s' Hs Hp | c s' d' Hc Hp Hbelow]; subst.
    + assert (Hchild : s ∈ List.filter (StrategyPage.has_parent (Strategy.parent_id s)) l)
        by (apply children_elem; auto).
      destruct (Hall s Hchild) as [ys Hys].
      destruct (StrategyPage.renderStrategies fuel _ _ _ _ _) as [below |] eqn:E;
        [| discriminate].
      inversion Hys; subst ys.
      exists (StrategyPage.row editingStrategyId strategies s i).
      split; [| split; [reflexivity | cbn; lia]].
      apply Hrows. exists s, (StrategyPage.row editingStrategyId strategies s i :: below).
      split; [exact Hchild | split; [| left]].
      rewrite E. reflexivity.
    + assert (Hchild : c ∈ List.filter (StrategyPage.has_parent (Strategy.parent_id c)) l)
        by (apply children_elem; auto).
      destruct (Hall c Hchild) as [ys Hys].
      destruct (StrategyPage.renderStrategies fuel _ _ _ _ _) as [below |] eqn:E;
        [| discriminate].
      inversion Hys; subst ys.
      destruct (proj2 (IH _ _ _ E s (i + 1 + d')%nat)) as (r & Hr & Hs & Hk);
        [exists d'; auto |].
      exists r. split; [| split; [exact Hs | lia]].
      apply Hrows. exists c, (StrategyPage.row editingStrategyId strategies c i :: below).
      split; [exact Hchild | split; [| right; exact Hr]].
      rewrite E. reflexivity.
Qed.

Lemma render_S (fuel : nat) (parent : option Z) (i : nat) :
  StrategyPage.renderStrategies (S fuel) editingStrategyId strategies l parent i
  = Js.flat_map_option
      (fun s =>
         match StrategyPage.renderStrategies fuel editingStrategyId strategies l
                 (Some (Strategy.id s)) (i + 1) with
         | Some below => Some (StrategyPage.row editingStrategyId strategies s i :: below)
         | None => None
         end)
      (List.filter (StrategyPage.has_parent parent) l).
Proof. reflexivity. Qed.

Lemma render_more_fuel (fuel : nat) (parent : option Z) (i : nat)
    (rows : list StrategyPage.Row) :
  StrategyPage.renderStrategies fuel editingStrategyId strategies l parent i = Some rows ->
  StrategyPage.renderStrategies (S fuel) editingStrategyId strategies l parent i
  = Some rows.
Proof.
  revert parent i rows. induction fuel as [| fuel IH]; intros parent i rows H;
    [discriminate |].
  rewrite render_S in H. rewrite (render_S (S fuel)).
  rewrite <- H. apply flat_map_option_ext. intros c Hc.
  destruct (proj1 (flat_map_option_Some _ _ _ H) c Hc) as [ys Hys].
  destruct (StrategyPage.renderStrategies fuel _ _ _ _ _) as [below |] eqn:E;
    [| discriminate].
  rewrite (IH _ _ _ E). reflexivity.
Qed.

Lemma render_fuel_le (fuel fuel' : nat) (parent : option Z) (i : nat)
    (rows : list StrategyPage.Row) :
  (fuel <= fuel')%nat ->
  StrategyPage.renderStrategies fuel editingStrategyId strategies l parent i = Some rows ->
  StrategyPage.renderStrategies fuel' editingStrategyId strategies l parent i
  = Some rows.
Proof.
  induction 1 as [| fuel' _ IH]; intros H; [exact H |].
  apply render_more_fuel, IH, H.
Qed.

Lemma render_fails_deep (n : nat) (parent : option Z) (i : nat) :
  StrategyPage.renderStrategies (S n) editingStrategyId strategies l parent i = None ->
  exists s, under l parent s n.
Proof.
  revert parent i. induction n as [| n IH]; intros parent i H;
    rewrite render_S in H;
    apply flat_map_option_None in H as (c & Hc & Hf);
    apply children_elem in Hc as [Hc Hp].
  - exists c. apply under_here; assumption.
  - destruct (StrategyPage.renderStrategies (S n) _ _ _ _ _) as [below |] eqn:E;
      [discriminate |].
    destruct (IH _ _ E) as [s Hs]. exists s. eapply under_below; eassumption.
Qed.
End Table.

Section ParentLinks.
Context (l : list Strategy.t).

Lemma under_in parent s d : under l parent s d -> s ∈ l.
Proof. induction 1; assumption. Qed.

(** The last link of the chain instead of the first. *)
Lemma under_last parent s d :
  under l parent s d ->
  (d = 0%nat /\ Strategy.parent_id s = parent)
  \/ exists q d', d = S d' /\ q ∈ l /\ Strategy.parent_id s = Some (Strategy.id q)
                  /\ under l parent q d'.
Proof.
  induction 1 as [parent s Hs Hp | parent c s d Hc Hp Hbelow IH].
  - left. auto.
  - right. destruct IH as [[-> Hps] | (q & d' & -> & Hq & Hps & Hunder)].
    + exists c, 0%nat.
      split; [reflexivity | split; [exact Hc | split; [exact Hps |]]].
      exact (under_here l parent c Hc Hp).
    + exists q, (S d').
      split; [reflexivity | split; [exact Hq | split; [exact Hps |]]].
      exact (under_below l parent c q d' Hc Hp Hunder).
Qed.

Lemma under_compose parent c k s d :
  under l parent c k -> under l (Some (Strategy.id c)) s d ->
  under l parent s (k + S d).
Proof.
  induction 1 as [parent c Hc Hp | parent c0 c k Hc0 Hp Hbelow IH]; intros Hs.
  - eapply under_below; eassumption.
  - cbn. eapply under_below; [eassumption | eassumption | apply IH, Hs].
Qed.

Hypothesis distinct_ids : NoDup (Strategy.id <$> l).

Lemma same_id a b : a ∈ l -> b ∈ l -> Strategy.id a = Strategy.id b -> a = b.
Proof.
  clear -distinct_ids. induction l as [| x l' IH]; intros Ha Hb E.
  - apply elem_of_nil in Ha. contradiction.
  - rewrite fmap_cons in distinct_ids.
    apply NoDup_cons in distinct_ids as [Hx Hnd].
    apply elem_of_cons in Ha as [-> | Ha]; apply elem_of_cons in Hb as [-> | Hb].
    + reflexivity.
    + exfalso. apply Hx. rewrite E. apply list_elem_of_fmap_2, Hb.
    + exfalso. apply Hx. rewrite <- E. apply list_elem_of_fmap_2, Ha.
    + apply IH; assumption.
Qed.

(** Below the top level a strategy has one depth only. *)
Lemma depth_unique s d1 d2 : under l None s d1 -> under l None s d2 -> d1 = d2.
Proof.
  revert s d2. induction d1 as [| d1 IH]; intros s d2 H1 H2;
    apply under_last in H1; apply under_last in H2;
    destruct H1 as [[E1 Hp1] | (q1 & e1 & E1 & Hq1 & Hp1 & Hu1)]; try discriminate;
    destruct H2 as [[E2 Hp2] | (q2 & e2 & E2 & Hq2 & Hp2 & Hu2)]; try congruence.
  inversion E1; subst e1. subst d2. f_equal.
  assert (q1 = q2) by (apply same_id; congruence). subst q2.
  apply (IH q1); assumption.
Qed.

Lemma rooted_chain s d :
  under l None s d ->
  exists chain : list Strategy.t,
    NoDup chain /\ length chain = S d
    /\ forall x, x ∈ chain -> x ∈ l /\ exists k, (k <= d)%nat /\ under l None x k.
Proof.
  revert s. induction d as [| d IH]; intros s H.
  - exists [s]. split; [apply NoDup_singleton | split; [reflexivity |]].
    intros x Hx. apply list_elem_of_singleton in Hx. subst x.
    split; [eapply under_in; eassumption | exists 0%nat; auto].
  - pose proof H as H'. apply under_last in H' as [[E _] | (q & d' & E & Hq & Hp & Hu)];
      [discriminate |].
    inversion E; subst d'. destruct (IH q Hu) as (chain & Hnd & Hlen & Hall).
    exists (s :: chain). split; [| split].
    + apply NoDup_cons. split; [| exact Hnd]. intros Hin.
      destruct (Hall s Hin) as (_ & k & Hk & Hsk).
      pose proof (depth_unique s _ _ H Hsk). lia.
    + cbn. rewrite Hlen. reflexivity.
    + intros x Hx. apply elem_of_cons in Hx as [-> | Hx].
      * split; [eapply under_in; eassumption | exists (S d); auto].
      * destruct (Hall x Hx) as (Hxl & k & Hk & Hxk). split; [exact Hxl |].
        exists k. split; [lia | exact Hxk].
Qed.

Lemma depth_bound s d : under l None s d -> (d < length l)%nat.
Proof.
  intros H. destruct (rooted_chain s d H) as (chain & Hnd & Hlen & Hall).
  assert (Hsub : chain ⊆+ l).
  { apply NoDup_submseteq; [exact Hnd |]. intros x Hx. apply Hall, Hx. }
  apply submseteq_length in Hsub. lia.
Qed.
End ParentLinks.

(** X22: when strategy ids are distinct, the strategy table is rendered:
    the recursion over the parent links ends within as many levels as there
    are strategies, and more fuel gives the same rows. *)
Theorem X22_strategy_table_is_rendered (editingStrategyId : option Z)
    (strategies : list Strategy.t) :
  NoDup (Strategy.id <$> strategies) ->
  exists rows,
    forall fuel, (length strategies < fuel)%nat ->
      StrategyPage.table fuel editingStrategyId strategies = Some rows.
Proof.
  intros Hnd. unfold StrategyPage.table.
  destruct (StrategyPage.renderStrategies (S (length strategies)) editingStrategyId
              strategies strategies None 0) as [rows |] eqn:E.
  - exists rows. intros fuel Hfuel.
    apply (render_fuel_le _ _ _ (S (length strategies))); [lia | exact E].
  - exfalso. apply render_fails_deep in E as [s Hs].
    pose proof (depth_bound strategies Hnd s _ Hs). lia.
Qed.

Lemma X22_strategy_table_is_rendered_witness :
  exists rows,
    forall fuel, (length Scenario.tree < fuel)%nat ->
      StrategyPage.table fuel None Scenario.tree = Some rows.
Proof.
  apply (X22_strategy_table_is_rendered None Scenario.tree).
  apply NoDup_ListNoDup. repeat constructor; simpl; intuition discriminate.
Defined.

(** X23: when strategy ids are distinct, the table is produced and shows a
    strategy with indentation [d] exactly when a chain of [d] parent links
    leads from it to a top-level strategy of the list. *)
Theorem X23_table_shows_the_rooted_strategies (fuel : nat)
    (editingStrategyId : option Z) (strategies : list Strategy.t) :
  NoDup (Strategy.id <$> strategies) ->
  (length strategies < fuel)%nat ->
  exists rows,
    StrategyPage.table fuel editingStrategyId strategies = Some rows
    /\ forall s d, shown_at rows s d <-> under strategies None s d.
Proof.
  intros Hnd Hfuel.
  destruct (StrategyPage.table fuel editingStrategyId strategies) as [rows |] eqn:E.
  - exists rows. split; [reflexivity |]. intros s d.
    rewrite (render_shown _ _ _ _ _ _ _ E). cbn. split.
    + intros (d' & Hd & ->). exact Hd.
    + intros Hd. exists d. auto.
  - exfalso. destruct fuel as [| n]; [lia |]. unfold StrategyPage.table in E.
    apply render_fails_deep in E as [s Hs].
    pose proof (depth_bound strategies Hnd s _ Hs). lia.
Qed.

Lemma X23_table_shows_the_rooted_strategies_witness :
  exists rows,
    StrategyPage.table 3 None Scenario.tree = Some rows
    /\ forall s d, shown_at rows s d <-> under Scenario.tree None s d.
Proof.
  apply (X23_table_shows_the_rooted_strategies 3 None Scenario.tree).
  - apply NoDup_ListNoDup. repeat constructor; simpl; intuition discriminate.
  - simpl. lia.
Defined.

(** X24: a strategy whose parent is not in the list is not shown in the
    table, and neither is, when ids are distinct, a strategy on a cycle of
    parent links (one that is its own parent, for instance). *)
Theorem X24_unrooted_strategies_are_not_shown (fuel : nat)
    (editingStrategyId : option Z) (strategies : list Strategy.t)
    (rows : list StrategyPage.Row) (s : Strategy.t) :
  StrategyPage.table fuel editingStrategyId strategies = Some rows ->
  (forall p, Strategy.parent_id s = Some p ->
             (forall q, q ∈ strategies -> Strategy.id q <> p) ->
             forall d, ~ shown_at rows s d)
  /\ (forall k, NoDup (Strategy.id <$> strategies) ->
                under strategies (Some (Strategy.id s)) s k ->
                forall d, ~ shown_at rows s d).
Proof.
  intros H. split.
  - intros p Hp Hmissing d Hshown.
    apply (render_shown _ _ _ _ _ _ _ H) in Hshown as (d' & Hd & _).
    apply under_last in Hd as [[_ Hnone] | (q & _ & _ & Hq & Hpq & _)].
    + congruence.
    + apply (Hmissing q Hq). congruence.
  - intros k Hnd Hcycle d Hshown.
    apply (render_shown _ _ _ _ _ _ _ H) in Hshown as (d' & Hd & _).
    pose proof (under_compose _ _ _ _ _ _ Hd Hcycle) as Hdeep.
    pose proof (depth_unique _ Hnd _ _ _ Hd Hdeep). lia.
Qed.

Lemma X24_unrooted_strategies_are_not_shown_witness :
  (forall d, ~ shown_at [StrategyPage.row None
                           [Strategy.mk 5 "Orphan" None (Some 9%Z)]
                           (Strategy.mk 4 "Top" None None) 0]
               (Strategy.mk 5 "Orphan" None (Some 9%Z)) d)
  /\ (forall d, ~ shown_at [] (Strategy.mk 6 "Loop" None (Some 6%Z)) d).
Proof.
  split.
  - apply (proj1 (X24_unrooted_strategies_are_not_shown 3 None
                    [Strategy.mk 4 "Top" None None; Strategy.mk 5 "Orphan" None (Some 9%Z)]
                    _ (Strategy.mk 5 "Orphan" None (Some 9%Z)) eq_refl) 9%Z eq_refl).
    intros q Hq. apply list_elem_of_In in Hq.
    destruct Hq as [<- | [<- | []]]; discriminate.
  - apply (proj2 (X24_unrooted_strategies_are_not_shown 2 None
                    [Strategy.mk 6 "Loop" None (Some 6%Z)]
                    _ (Strategy.mk 6 "Loop" None (Some 6%Z)) eq_refl) 0%nat).
    + apply NoDup_singleton.
    + apply under_here; [left | reflexivity].
Defined.

Lemma flat_map_option_NoDup {A B C} (f : A -> option (list B)) (g : B -> C)
    (l : list A) (rows : list B) :
  Js.flat_map_option f l = Some rows ->
  NoDup l ->
  (forall x ys, x ∈ l -> f x = Some ys -> NoDup (g <$> ys)) ->
  (forall x1 x2 ys1 ys2 r1 r2,
     x1 ∈ l -> x2 ∈ l -> f x1 = Some ys1 -> f x2 = Some ys2 ->
     r1 ∈ ys1 -> r2 ∈ ys2 -> g r1 = g r2 -> x1 = x2) ->
  NoDup (g <$> rows).
Proof.
  revert rows. induction l as [| x l IH]; intros rows H Hnd Hone Hcross; simpl in H.
  - inversion H. constructor.
  - destruct (f x) as [ys |] eqn:Ex; [| discriminate].
    destruct (Js.flat_map_option f l) as [zs |] eqn:El; [| discriminate].
    inversion H; subst rows. apply NoDup_cons in Hnd as [Hx Hnd].
    rewrite fmap_app. apply NoDup_app. split; [| split].
    + apply (Hone x); [left | exact Ex].
    + intros c Hc1 Hc2.
      apply list_elem_of_fmap in Hc1 as (r1 & -> & Hr1).
      apply list_elem_of_fmap in Hc2 as (r2 & E & Hr2).
      apply (proj2 (flat_map_option_Some f l zs El)) in Hr2 as (y & ys' & Hy & Hfy & Hr2).
      assert (x = y).
      { apply (Hcross x y ys ys' r1 r2); auto; [left | right; exact Hy]. }
      subst y. contradiction.
    + apply IH; [reflexivity | exact Hnd | |].
      * intros y ys' Hy. apply Hone. right. exact Hy.
      * intros x1 x2 ys1 ys2 r1 r2 H1 H2. apply Hcross; right; assumption.
Qed.

Section ShownOnce.
Context (editingStrategyId : option Z) (strategies l : list Strategy.t).
Hypothesis distinct_ids : NoDup (Strategy.id <$> l).

Lemma top_unique c1 c2 s d :
  c1 ∈ l -> c2 ∈ l ->
  under l (Some (Strategy.id c1)) s d -> under l (Some (Strategy.id c2)) s d ->
  c1 = c2.
Proof.
  intros Hc1 Hc2. revert s. induction d as [| d IH]; intros s H1 H2;
    apply under_last in H1; apply under_last in H2;
    destruct H1 as [[E1 Hp1] | (q1 & e1 & E1 & Hq1 & Hp1 & Hu1)]; try discriminate;
    destruct H2 as [[E2 Hp2] | (q2 & e2 & E2 & Hq2 & Hp2 & Hu2)]; try discriminate.
  - apply (same_id l distinct_ids); congruence.
  - inversion E1; subst e1. inversion E2; subst e2.
    assert (q1 = q2) by (apply (same_id l distinct_ids); congruence). subst q2.
    apply (IH q1); assumption.
Qed.

Lemma render_NoDup (fuel : nat) (parent : option Z) (i base : nat)
    (rows : list StrategyPage.Row) :
  StrategyPage.renderStrategies fuel editingStrategyId strategies l parent i = Some rows ->
  (forall s d, under l parent s d -> under l None s (base + d)) ->
  NoDup (StrategyPage.strategy <$> rows).
Proof.
  revert parent i base rows.
  induction fuel as [| fuel IH]; intros parent i base rows H Hlift; [discriminate |].
  rewrite render_S in H.
  assert (Hbelow : forall c, c ∈ l -> Strategy.parent_id c = parent ->
            forall s d, under l (Some (Strategy.id c)) s d ->
                        under l None s (S base + d)).
  { intros c Hc Hp s d Hs. replace (S base + d)%nat with (base + S d)%nat by lia.
    apply Hlift. exact (under_below l parent c s d Hc Hp Hs). }
  assert (Htop : forall c, c ∈ l -> Strategy.parent_id c = parent ->
            under l None c base).
  { intros c Hc Hp. replace base with (base + 0)%nat by lia.
    apply Hlift. exact (under_here l parent c Hc Hp). }
  assert (Hrow : forall c ys r,
            match StrategyPage.renderStrategies fuel editingStrategyId strategies l
                    (Some (Strategy.id c)) (i + 1) with
            | Some below => Some (StrategyPage.row editingStrategyId strategies c i :: below)
            | None => None
            end = Some ys ->
            r ∈ ys ->
            StrategyPage.strategy r = c
            \/ exists d, under l (Some (Strategy.id c)) (StrategyPage.strategy r) d).
  { intros c ys r Hf Hr.
    destruct (StrategyPage.renderStrategies fuel editingStrategyId strategies l
                (Some (Strategy.id c)) (i + 1)) as [below |] eqn:E;
      rewrite ?E in Hf; [| discriminate].
    inversion Hf; subst ys. apply elem_of_cons in Hr as [-> | Hr]; [left; reflexivity |].
    right.
    destruct (proj1 (render_shown _ _ _ _ _ _ _ E (StrategyPage.strategy r)
                       (StrategyPage.indent r))) as (d & Hd & _); [exists r; auto |].
    exists d. exact Hd. }
  eapply flat_map_option_NoDup; [exact H | | |].
  - apply NoDup_ListNoDup, List.NoDup_filter, NoDup_ListNoDup.
    eapply NoDup_fmap_1. exact distinct_ids.
  - intros c ys Hc Hf. apply children_elem in Hc as [Hc Hp]. cbn beta in Hf.
    destruct (StrategyPage.renderStrategies fuel editingStrategyId strategies l
                (Some (Strategy.id c)) (i + 1)) as [below |] eqn:E;
      rewrite ?E in Hf; [| discriminate].
    inversion Hf; subst ys. rewrite fmap_cons. cbn [StrategyPage.row StrategyPage.strategy].
    apply NoDup_cons. split.
    + intros Hin. apply list_elem_of_fmap in Hin as (r & Er & Hr).
      destruct (proj1 (render_shown _ _ _ _ _ _ _ E c (StrategyPage.indent r)))
        as (d & Hd & _); [exists r; auto |].
      pose proof (depth_unique l distinct_ids c _ _ (Htop c Hc Hp)
                    (Hbelow c Hc Hp c d Hd)). lia.
    + apply (IH _ _ (S base) _ E). apply Hbelow; assumption.
  - intros c1 c2 ys1 ys2 r1 r2 Hc1 Hc2 Hf1 Hf2 Hr1 Hr2 Er.
    apply children_elem in Hc1 as [Hc1 Hp1]. apply children_elem in Hc2 as [Hc2 Hp2].
    destruct (Hrow c1 ys1 r1 Hf1 Hr1) as [E1 | [d1 Hd1]];
      destruct (Hrow c2 ys2 r2 Hf2 Hr2) as [E2 | [d2 Hd2]].
    + congruence.
    + rewrite <- Er, E1 in Hd2.
      pose proof (depth_unique l distinct_ids c1 _ _ (Htop c1 Hc1 Hp1)
                    (Hbelow c2 Hc2 Hp2 c1 d2 Hd2)). lia.
    + rewrite Er, E2 in Hd1.
      pose proof (depth_unique l distinct_ids c2 _ _ (Htop c2 Hc2 Hp2)
                    (Hbelow c1 Hc1 Hp1 c2 d1 Hd1)). lia.
    + rewrite <- Er in Hd2.
      pose proof (depth_unique l distinct_ids _ _ _
                    (Hbelow c1 Hc1 Hp1 _ d1 Hd1) (Hbelow c2 Hc2 Hp2 _ d2 Hd2)) as Hd.
      assert (d1 = d2) by lia. subst d2.
      apply (top_unique c1 c2 (StrategyPage.strategy r1) d1); assumption.
Qed.
End ShownOnce.

(** X25: when strategy ids are distinct, no strategy is shown twice in the
    table; and when every strategy of the list leads to a top-level one, the
    table shows each strategy of the list once. *)
Theorem X25_each_strategy_is_shown_once (fuel : nat) (editingStrategyId : option Z)
    (strategies : list Strategy.t) (rows : list StrategyPage.Row) :
  NoDup (Strategy.id <$> strategies) ->
  StrategyPage.table fuel editingStrategyId strategies = Some rows ->
  NoDup (StrategyPage.strategy <$> rows)
  /\ ((forall s, s ∈ strategies -> exists d, under strategies None s d) ->
      Permutation (StrategyPage.strategy <$> rows) strategies).
Proof.
  intros Hnd H.
  assert (Hrows : NoDup (StrategyPage.strategy <$> rows)).
  { apply (render_NoDup editingStrategyId strategies strategies Hnd fuel None 0 0 rows H).
    intros s d Hs. exact Hs. }
  split; [exact Hrows |]. intros Hall.
  apply NoDup_Permutation; [exact Hrows | eapply NoDup_fmap_1; exact Hnd |].
  intros s. split.
  - intros Hs. apply list_elem_of_fmap in Hs as (r & -> & Hr).
    destruct (proj1 (render_shown _ _ _ _ _ _ _ H (StrategyPage.strategy r)
                       (StrategyPage.indent r))) as (d & Hd & _); [exists r; auto |].
    eapply under_in. exact Hd.
  - intros Hs. destruct (Hall s Hs) as [d Hd].
    destruct (proj2 (render_shown _ _ _ _ _ _ _ H s (0 + d)%nat)) as (r & Hr & <- & _);
      [exists d; auto |].
    apply list_elem_of_fmap_2, Hr.
Qed.

Lemma X25_each_strategy_is_shown_once_witness :
  NoDup [Scenario.growth; Scenario.growth_tech]
  /\ ((forall s, s ∈ Scenario.tree -> exists d, under Scenario.tree None s d) ->
      Permutation [Scenario.growth; Scenario.growth_tech] Scenario.tree).
Proof.
  apply (X25_each_strategy_is_shown_once 3 None Scenario.tree
           [StrategyPage.row None Scenario.tree Scenario.growth 0;
            StrategyPage.row None Scenario.tree Scenario.growth_tech 1]).
  - apply NoDup_ListNoDup. repeat constructor; simpl; intuition discriminate.
  - reflexivity.
Defined.

(** ** The news pages and the market capitalisation *)

Section NewsPages.
Context {A : Type} (news : list A).

Lemma totalPages_bounds :
  (0 <= StockDetailPage.totalPages news)%Z
  /\ (Z.of_nat (length news) <= 10 * StockDetailPage.totalPages news)%Z
  /\ (10 * (StockDetailPage.totalPages news - 1) < Z.of_nat (length news))%Z.
Proof.
  unfold StockDetailPage.totalPages, StockDetailPage.newsPerPage.
  set (n := Z.of_nat (length news)).
  set (x := inject_Z n / inject_Z 10).
  pose proof (Qle_ceiling x) as Hle. pose proof (Qceiling_lt x) as Hlt.
  assert (Hx : inject_Z n == x * inject_Z 10) by (unfold x; field; discriminate).
  assert (Hup : (n <= 10 * Qceiling x)%Z).
  { rewrite Zle_Qle, inject_Z_mult, Hx. change (inject_Z 10) with 10 in *. lra. }
  assert (Hlow : (10 * (Qceiling x - 1) < n)%Z).
  { rewrite Zlt_Qlt, inject_Z_mult, Hx. change (inject_Z 10) with 10 in *. lra. }
  assert (0 <= n)%Z by (unfold n; lia).
  split; [lia | split; assumption].
Qed.

Lemma take_min_length (a : nat) (l : list A) : take (min a (length l)) l = take a l.
Proof.
  destruct (Nat.le_ge_cases a (length l)) as [H | H].
  - rewrite Nat.min_l by exact H. reflexivity.
  - rewrite Nat.min_r by exact H. rewrite !take_ge by lia. reflexivity.
Qed.

Lemma page_chunk (k : nat) :
  StockDetailPage.page news (Z.of_nat (S k)) = take 10 (drop (10 * k) news).
Proof.
  unfold StockDetailPage.page, StockDetailPage.newsPerPage, Js.slice, Js.slice_index.
  set (n := length news).
  replace ((Z.of_nat (S k) - 1) * 10 <? 0)%Z with false by (symmetry; apply Z.ltb_ge; lia).
  replace (Z.of_nat (S k) * 10 <? 0)%Z with false by (symmetry; apply Z.ltb_ge; lia).
  destruct (Nat.le_ge_cases (10 * k) n) as [H | H].
  - replace (Z.to_nat (Z.min ((Z.of_nat (S k) - 1) * 10) (Z.of_nat n)))
      with (10 * k)%nat by lia.
    replace (Z.to_nat (Z.min (Z.of_nat (S k) * 10) (Z.of_nat n)
                       - Z.min ((Z.of_nat (S k) - 1) * 10) (Z.of_nat n)))
      with (min 10 (length (drop (10 * k) news))) by (rewrite length_drop; lia).
    apply take_min_length.
  - replace (Z.to_nat (Z.min (Z.of_nat (S k) * 10) (Z.of_nat n)
                       - Z.min ((Z.of_nat (S k) - 1) * 10) (Z.of_nat n)))
      with 0%nat by lia.
    rewrite (drop_ge news (10 * k)) by exact H. reflexivity.
Qed.

Lemma chunks_concat (t : nat) :
  concat ((fun k => take 10 (drop (10 * k) news)) <$> seq 0 t) = take (10 * t) news.
Proof.
  induction t as [| t IH]; [reflexivity |].
  rewrite seq_S, fmap_app, concat_app, IH. cbn [fmap list_fmap concat].
  rewrite app_nil_r, take_take_drop. f_equal. lia.
Qed.
End NewsPages.

(** X26: the pages of the news list, from page 1 to the last, are the news
    list cut into pieces: put together in order they give the list back,
    every page has at most ten articles and none of them is empty. *)
Theorem X26_pages_cut_the_news {A} (news : list A) :
  concat (StockDetailPage.page news <$> page_numbers news) = news
  /\ forall p, p ∈ page_numbers news ->
       StockDetailPage.page news p <> []
       /\ (length (StockDetailPage.page news p) <= 10)%nat.
Proof.
  pose proof (totalPages_bounds news) as (H0 & Hup & Hlow).
  unfold page_numbers. set (t := Z.to_nat (StockDetailPage.totalPages news)) in *.
  split.
  - transitivity (take (10 * t) news); [| apply take_ge; lia].
    rewrite <- chunks_concat, <- fmap_S_seq, <- !list_fmap_compose.
    f_equal. apply list_fmap_ext. intros _ k _. cbn. apply page_chunk.
  - intros p Hp. apply list_elem_of_fmap in Hp as (k & -> & Hk).
    apply elem_of_seq in Hk. destruct k as [| k]; [lia |].
    rewrite page_chunk. split.
    + intros E. apply (f_equal length) in E.
      rewrite length_take, length_drop in E.
      change (length (@nil A)) with 0%nat in E. lia.
    + rewrite length_take. lia.
Qed.

(** X27: while the page number lies between 1 and the number of pages, the
    two buttons keep it there; "previous" does nothing on page 1 and "next"
    nothing on the last page, and elsewhere each undoes the other. *)
Theorem X27_page_stays_in_range {A} (news : list A) (p : Z) :
  (1 <= p <= StockDetailPage.totalPages news)%Z ->
  (1 <= StockDetailPage.previousPage p <= StockDetailPage.totalPages news)%Z
  /\ (1 <= StockDetailPage.nextPage news p <= StockDetailPage.totalPages news)%Z
  /\ StockDetailPage.previousPage 1 = 1%Z
  /\ StockDetailPage.nextPage news (StockDetailPage.totalPages news)
     = StockDetailPage.totalPages news
  /\ ((1 < p)%Z ->
      StockDetailPage.nextPage news (StockDetailPage.previousPage p) = p)
  /\ ((p < StockDetailPage.totalPages news)%Z ->
      StockDetailPage.previousPage (StockDetailPage.nextPage news p) = p).
Proof.
  unfold StockDetailPage.previousPage, StockDetailPage.nextPage. intros Hp.
  repeat split; lia.
Qed.

Lemma X27_page_stays_in_range_witness :
  (1 <= StockDetailPage.previousPage 2 <= StockDetailPage.totalPages (seq 0 25))%Z
  /\ (1 <= StockDetailPage.nextPage (seq 0 25) 2
      <= StockDetailPage.totalPages (seq 0 25))%Z
  /\ StockDetailPage.previousPage 1 = 1%Z
  /\ StockDetailPage.nextPage (seq 0 25) (StockDetailPage.totalPages (seq 0 25))
     = StockDetailPage.totalPages (seq 0 25)
  /\ ((1 < 2)%Z ->
      StockDetailPage.nextPage (seq 0 25) (StockDetailPage.previousPage 2) = 2%Z)
  /\ ((2 < StockDetailPage.totalPages (seq 0 25))%Z ->
      StockDetailPage.previousPage (StockDetailPage.nextPage (seq 0 25) 2) = 2%Z).
Proof.
  apply (X27_page_stays_in_range (seq 0 25) 2). vm_compute. split; discriminate.
Defined.

(** X28: a market capitalisation just below a billion, from 999,995,000
    on, is shown as "$1000.00M": it is still in the million range, and two
    decimals round it up to a thousand. *)
Theorem X28_market_cap_just_below_a_billion (marketCap : Q) :
  999995000 <= marketCap -> marketCap < 1000000000 ->
  StockDetailPage.formatMarketCap marketCap = Some "$1000.00M".
Proof.
  intros Hlo Hhi. unfold StockDetailPage.formatMarketCap.
  assert (E1 : Qle_bool 1000000000000 marketCap = false).
  { destruct (Qle_bool 1000000000000 marketCap) eqn:E; [| reflexivity].
    apply Qle_bool_iff in E. lra. }
  assert (E2 : Qle_bool 1000000000 marketCap = false).
  { destruct (Qle_bool 1000000000 marketCap) eqn:E; [| reflexivity].
    apply Qle_bool_iff in E. lra. }
  assert (E3 : Qle_bool 1000000 marketCap = true) by (apply Qle_bool_iff; lra).
  rewrite E1, E2, E3.
  assert (Hd : marketCap / 1000000 == marketCap * (1 # 1000000)) by (field; discriminate).
  rewrite (toFixed_nearest (marketCap / 1000000) 2 100000).
  - reflexivity.
  - rewrite Hd. lra.
  - rewrite Hd. apply Qlt_trans with 1000; [lra | reflexivity].
  - change (inject_Z (10 ^ Z.of_nat 2)) with 100. change (inject_Z 100000) with 100000.
    rewrite Hd. lra.
  - change (inject_Z (10 ^ Z.of_nat 2)) with 100. change (inject_Z 100000) with 100000.
    rewrite Hd. lra.
Qed.

Lemma X28_market_cap_just_below_a_billion_witness :
  StockDetailPage.formatMarketCap 999999999 = Some "$1000.00M".
Proof.
  apply (X28_market_cap_just_below_a_billion 999999999); vm_compute;
    [discriminate | reflexivity].
Defined.

(** ** The edit form of the strategy page *)

Lemma object_of_name (s : Strategy.t) :
  Js.field (StrategyPage.object_of s) "name" = Js.text (Strategy.name s).
Proof.
  unfold Js.field, StrategyPage.object_of.
  rewrite lookup_insert_ne by discriminate. rewrite lookup_insert_eq. reflexivity.
Qed.

Lemma object_of_description (s : Strategy.t) :
  Js.field (StrategyPage.object_of s) "description"
  = match Strategy.description s with Some d => Js.text d | None => Js.null end.
Proof.
  unfold Js.field, StrategyPage.object_of.
  rewrite !lookup_insert_ne by discriminate. rewrite lookup_insert_eq. reflexivity.
Qed.

Lemma object_of_parent_id (s : Strategy.t) :
  Js.field (StrategyPage.object_of s) "parent_id"
  = match Strategy.parent_id s with Some p => Js.number p | None => Js.null end.
Proof.
  unfold Js.field, StrategyPage.object_of.
  rewrite !lookup_insert_ne by discriminate. rewrite lookup_insert_eq. reflexivity.
Qed.

Lemma str_falsy_false (x : string) : x <> "" -> Js.str_falsy x = false.
Proof. intros H. unfold Js.str_falsy. apply String.eqb_neq. exact H. Qed.

(** X29: "edit" followed at once by "save" sends the strategy back as it
    is (an empty description as null), closes the form and reloads the
    list, for a strategy with a name and an id other than 0 that the
    server accepts. *)
Theorem X29_strategy_edit_then_save (put_ok : Z -> StrategyPage.UpdateBody -> bool)
    (s : Strategy.t) (st : StrategyPage.State) :
  Strategy.id s <> 0%Z -> Strategy.name s <> "" ->
  put_ok (Strategy.id s) (body_of s) = true ->
  StrategyPage.handleUpdateStrategy put_ok (StrategyPage.handleEditClick s st)
  = (StrategyPage.handleCancelClick st,
     [StrategyPage.PutStrategy (Strategy.id s) (body_of s);
      StrategyPage.FetchStrategies]).
Proof.
  intros Hid Hname Hok.
  unfold StrategyPage.handleUpdateStrategy, StrategyPage.handleEditClick.
  cbn [StrategyPage.editingStrategyId StrategyPage.editFormData].
  rewrite (proj2 (Z.eqb_neq _ _) Hid).
  rewrite object_of_name, object_of_description, object_of_parent_id.
  cbn [Js.falsy]. rewrite (str_falsy_false _ Hname).
  assert (E : StrategyPage.mkBody (Js.text (Strategy.name s))
                (if Js.falsy match Strategy.description s with
                             | Some d => Js.text d
                             | None => Js.null
                             end
                 then Js.null
                 else match Strategy.description s with
                      | Some d => Js.text d
                      | None => Js.null
                      end)
                match match Strategy.parent_id s with
                      | Some p => Js.number p
                      | None => Js.null
                      end with
                | Js.undefined => Js.null
                | v => v
                end
              = body_of s).
  { unfold body_of. f_equal.
    - destruct (Strategy.description s) as [d |]; cbn [Js.falsy]; [| reflexivity].
      destruct (Js.str_falsy d); reflexivity.
    - destruct (Strategy.parent_id s); reflexivity. }
  rewrite E, Hok. reflexivity.
Qed.

Lemma X29_strategy_edit_then_save_witness :
  StrategyPage.handleUpdateStrategy (fun _ _ => true)
    (StrategyPage.handleEditClick Scenario.growth_tech
       (StrategyPage.mkState Scenario.tree None ∅))
  = (StrategyPage.handleCancelClick (StrategyPage.mkState Scenario.tree None ∅),
     [StrategyPage.PutStrategy (Strategy.id Scenario.growth_tech)
        (body_of Scenario.growth_tech);
      StrategyPage.FetchStrategies]).
Proof.
  apply (X29_strategy_edit_then_save (fun _ _ => true) Scenario.growth_tech
           (StrategyPage.mkState Scenario.tree None ∅)).
  - vm_compute. discriminate.
  - vm_compute. discriminate.
  - reflexivity.
Defined.

(** X30: the parent chosen in the edit form is sent as the text of the
    option, not as a number, and the option "none" as null; the other
    fields are sent as they were. *)
Theorem X30_chosen_parent_is_sent_as_text
    (put_ok : Z -> StrategyPage.UpdateBody -> bool)
    (s : Strategy.t) (st : StrategyPage.State) (value : string) :
  Strategy.id s <> 0%Z -> Strategy.name s <> "" ->
  exists st',
    StrategyPage.handleUpdateStrategy put_ok
      (StrategyPage.handleEditFormChange "parent_id" value
         (StrategyPage.handleEditClick s st))
    = (st',
       StrategyPage.PutStrategy (Strategy.id s)
         (StrategyPage.mkBody (StrategyPage.body_name (body_of s))
            (StrategyPage.body_description (body_of s))
            (if String.eqb value "" then Js.null else Js.text value))
       :: (if put_ok (Strategy.id s)
                (StrategyPage.mkBody (StrategyPage.body_name (body_of s))
                   (StrategyPage.body_description (body_of s))
                   (if String.eqb value "" then Js.null else Js.text value))
           then [StrategyPage.FetchStrategies]
           else [StrategyPage.ConsoleError "Error updating strategy:";
                 StrategyPage.Alert StrategyPage.msg_update_failed])).
Proof.
  intros Hid Hname.
  unfold StrategyPage.handleUpdateStrategy, StrategyPage.handleEditFormChange,
    StrategyPage.handleEditClick.
  cbn [StrategyPage.editingStrategyId StrategyPage.editFormData].
  rewrite (proj2 (Z.eqb_neq _ _) Hid).
  change (String.eqb "parent_id" "parent_id") with true. cbn [andb].
  assert (En : forall v, Js.field (<["parent_id" := v]> (StrategyPage.object_of s)) "name"
                         = Js.text (Strategy.name s)).
  { intros v. unfold Js.field. rewrite lookup_insert_ne by discriminate.
    apply object_of_name. }
  assert (Ed : forall v, Js.field (<["parent_id" := v]> (StrategyPage.object_of s))
                           "description"
                         = match Strategy.description s with
                           | Some d => Js.text d
                           | None => Js.null
                           end).
  { intros v. unfold Js.field. rewrite lookup_insert_ne by discriminate.
    apply object_of_description. }
  assert (Ep : forall v, Js.field (<["parent_id" := v]> (StrategyPage.object_of s))
                           "parent_id" = v).
  { intros v. unfold Js.field. rewrite lookup_insert_eq. reflexivity. }
  rewrite En, Ed, Ep. cbn [Js.falsy]. rewrite (str_falsy_false _ Hname).
  assert (E : (if Js.falsy match Strategy.description s with
                           | Some d => Js.text d
                           | None => Js.null
                           end
               then Js.null
               else match Strategy.description s with
                    | Some d => Js.text d
                    | None => Js.null
                    end)
              = StrategyPage.body_description (body_of s)).
  { unfold body_of. cbn [StrategyPage.body_description].
    destruct (Strategy.description s) as [d |]; cbn [Js.falsy]; [| reflexivity].
    destruct (Js.str_falsy d); reflexivity. }
  rewrite E. cbn [body_of StrategyPage.body_name].
  assert (Ev : match (if String.eqb value "" then Js.null
                      else if String.eqb value "" then Js.text "" else Js.text value) with
               | Js.undefined => Js.null
               | v => v
               end
               = (if String.eqb value "" then Js.null else Js.text value)).
  { destruct (String.eqb value ""); reflexivity. }
  rewrite Ev.
  destruct (put_ok _ _); eexists; reflexivity.
Qed.

Lemma X30_chosen_parent_is_sent_as_text_witness :
  exists st',
    StrategyPage.handleUpdateStrategy (fun _ _ => true)
      (StrategyPage.handleEditFormChange "parent_id" "7"
         (StrategyPage.handleEditClick Scenario.growth_tech
            (StrategyPage.mkState Scenario.tree None ∅)))
    = (st',
       StrategyPage.PutStrategy (Strategy.id Scenario.growth_tech)
         (StrategyPage.mkBody (StrategyPage.body_name (body_of Scenario.growth_tech))
            (StrategyPage.body_description (body_of Scenario.growth_tech))
            (if String.eqb "7" "" then Js.null else Js.text "7"))
       :: (if (fun _ _ => true) (Strategy.id Scenario.growth_tech)
                (StrategyPage.mkBody
                   (StrategyPage.body_name (body_of Scenario.growth_tech))
                   (StrategyPage.body_description (body_of Scenario.growth_tech))
                   (if String.eqb "7" "" then Js.null else Js.text "7"))
           then [StrategyPage.FetchStrategies]
           else [StrategyPage.ConsoleError "Error updating strategy:";
                 StrategyPage.Alert StrategyPage.msg_update_failed])).
Proof.
  apply (X30_chosen_parent_is_sent_as_text (fun _ _ => true) Scenario.growth_tech
           (StrategyPage.mkState Scenario.tree None ∅) "7").
  - vm_compute. discriminate.
  - vm_compute. discriminate.
Defined.
